(** * Shortest-path forwarding: flow installation and packet triage

    A shallow embedding of [ryu/app/network_awareness/shortest_forwarding.py]
    (class [ShortestForwarding]).  Python integers are [Z], addresses are
    strings, dictionaries that the code only looks up are [gmap]s, and
    dictionaries that the code iterates are kept as the list of their items in
    insertion order.  Every write to a switch control channel and every logger
    call is appended to a trace that is threaded through the handlers; Python
    exceptions are explicit results. *)

From stdpp Require Import base option list gmap strings.
From Stdlib Require Import ZArith Lia.

Local Open Scope Z_scope.

(** ** Exceptions and results *)

Inductive exn : Type :=
| KeyError
| AttributeError
| TypeError
| IndexError
| AssertionError.

Inductive result (A : Type) : Type :=
| Ok (a : A)
| Raise (e : exn).

Arguments Ok {A} a.
Arguments Raise {A} e.

#[global] Instance exn_eq_dec : EqDecision exn.
Proof. solve_decision. Defined.

#[global] Instance result_ret : MRet result := λ A a, Ok a.

#[global] Instance result_bind : MBind result := λ A B k m,
  match m with
  | Ok a => k a
  | Raise e => Raise e
  end.

(** ** OpenFlow objects *)

(** The constants the code reads through [datapath.ofproto].  The application
    declares [OFP_VERSIONS = [ofproto_v1_3.OFP_VERSION]], so every handle
    carries the same protocol module; that module (ryu/ofproto, not under
    src/) is a parameter of the handlers below. *)
Record ofproto : Type := {
  OFP_NO_BUFFER : Z;
  OFPP_CONTROLLER : Z;
  OFPP_LOCAL : Z;
  OFPIT_APPLY_ACTIONS : Z
}.

(** The values of OpenFlow 1.3, used for the concrete runs. *)
Definition ofproto_v1_3 : ofproto := {|
  OFP_NO_BUFFER := 0xffffffff;
  OFPP_CONTROLLER := 0xfffffffd;
  OFPP_LOCAL := 0xfffffffe;
  OFPIT_APPLY_ACTIONS := 4
|}.

(** A control handle of a switch, with its [datapath.id]. *)
Record datapath : Type := {
  dp_id : Z
}.

Definition payload : Type := list Byte.byte.

Inductive action : Type :=
| OFPActionOutput (port : Z).

Record OFPMatch : Type := {
  in_port : Z;
  eth_type : Z;
  ipv4_src : string;
  ipv4_dst : string
}.

Inductive instruction : Type :=
| OFPInstructionActions (type_ : Z) (actions : list action).

(** The [datapath=] argument of both messages is the handle the message is
    then sent on; it is the handle of the [Send] event below. *)
Record OFPFlowMod : Type := {
  priority : Z;
  idle_timeout : Z;
  hard_timeout : Z;
  fm_match : OFPMatch;
  instructions : list instruction
}.

Record OFPPacketOut : Type := {
  po_buffer_id : Z;
  po_data : option payload;
  po_in_port : Z;
  po_actions : list action
}.

Inductive ofp_msg : Type :=
| FlowMod (m : OFPFlowMod)
| PacketOut (p : OFPPacketOut).

(** ** The trace of effects *)

Inductive log_arg : Type :=
| ArgInt (z : Z)
| ArgStr (s : string)
| ArgPath (p : list Z).

Inductive log_record : Type :=
| LogInfo (fmt : string) (args : list log_arg)
| LogDebug (fmt : string) (args : list log_arg).

Inductive event : Type :=
| Send (dp : datapath) (m : ofp_msg)
| Log (r : log_record).

Definition trace : Type := list event.

(** Handlers: a trace in, a result and the extended trace out.  The trace
    written before an exception is kept. *)
Definition M (A : Type) : Type := trace → result A * trace.

#[global] Instance M_ret : MRet M := λ A a t, (Ok a, t).

#[global] Instance M_bind : MBind M := λ A B k m t,
  match m t with
  | (Ok a, t') => k a t'
  | (Raise e, t') => (Raise e, t')
  end.

Definition lift {A : Type} (r : result A) : M A := λ t, (r, t).

Definition emit (e : event) : M unit := λ t, (Ok tt, t ++ [e]).

Definition logger_info (fmt : string) (args : list log_arg) : M unit :=
  emit (Log (LogInfo fmt args)).

Definition logger_debug (fmt : string) (args : list log_arg) : M unit :=
  emit (Log (LogDebug fmt args)).

(** Modelled from the spec: [Datapath.send_msg] (ryu/controller/controller.py)
    is not under src/.  Section 4.7: one control-channel write per call, no
    acknowledgement awaited.  Its argument must be a message object: handed
    [None] it fails its own assertion before anything is written. *)
Definition send_msg (dp : datapath) (msg : option ofp_msg) : M unit :=
  match msg with
  | Some m => emit (Send dp m)
  | None => lift (Raise AssertionError)
  end.

(** A [for] loop without [break]. *)
Fixpoint for_each {A : Type} (l : list A) (body : A → M unit) : M unit :=
  match l with
  | [] => mret tt
  | x :: l' => body x ;; for_each l' body
  end.

(** ** Python containers *)

(** [d[k]] on a dictionary that is only looked up. *)
Definition getitem `{Countable K} {V : Type} (d : gmap K V) (k : K) : result V :=
  match d !! k with
  | Some v => Ok v
  | None => Raise KeyError
  end.

(** A dictionary that is iterated: its items in insertion order. *)
Fixpoint assoc `{EqDecision K} {V : Type} (d : list (K * V)) (k : K) : option V :=
  match d with
  | [] => None
  | (k', v) :: d' => if decide (k' = k) then Some v else assoc d' k
  end.

Definition keys {K V : Type} (d : list (K * V)) : list K := d.*1.

Definition dict_getitem `{EqDecision K} {V : Type} (d : list (K * V)) (k : K)
  : result V :=
  match assoc d k with
  | Some v => Ok v
  | None => Raise KeyError
  end.

(** [l[i]] on a list, negative indices counting from the end. *)
Definition list_getitem {A : Type} (l : list A) (i : Z) : result A :=
  let j := if i <? 0 then i + Z.of_nat (length l) else i in
  if j <? 0 then Raise IndexError
  else match l !! Z.to_nat j with
       | Some x => Ok x
       | None => Raise IndexError
       end.

(** [range(a, b)]. *)
Definition range (a b : Z) : list Z := seqZ a (b - a).

(** ** The application state *)

(** What the handlers read from the [network_awareness] collaborator. *)
Record NetworkAwareness : Type := {
  access_ports : list (Z * list Z);
  access_table : list ((Z * Z) * (string * string));
  link_to_port : gmap (Z * Z) (Z * Z);
  shortest_paths : gmap Z (gmap Z (list (list Z)))
}.

Record ShortestForwarding : Type := {
  awareness : NetworkAwareness;
  datapaths : gmap Z datapath
}.

(** A packet-in message: [msg.datapath], [msg.match['in_port']],
    [msg.buffer_id] and [msg.data]; a packet-in always carries its bytes. *)
Record packet_in : Type := {
  msg_datapath : datapath;
  msg_in_port : Z;
  msg_buffer_id : Z;
  msg_data : payload
}.

(** Modelled from the spec: [NetworkAwareness.get_host_location] is not under
    src/.  Section 6: [getHostLocation(addr) -> AccessPoint | None], the
    access point the Host Location Table records for the address. *)
Fixpoint get_host_location (access_table : list ((Z * Z) * (string * string)))
    (host_ip : string) : option (Z * Z) :=
  match access_table with
  | [] => None
  | (key, (ip, _)) :: rest =>
      if decide (ip = host_ip) then Some key else get_host_location rest host_ip
  end.

(** ** Switch Registry *)

Inductive dispatcher : Type :=
| MAIN_DISPATCHER
| DEAD_DISPATCHER.

(** [_state_change_handler]: register a handle under its own id on
    [MAIN_DISPATCHER], drop it on [DEAD_DISPATCHER]. *)
Definition _state_change_handler (self : ShortestForwarding)
    (ev_datapath : datapath) (ev_state : dispatcher)
  : M ShortestForwarding :=
  let datapath := ev_datapath in
  match ev_state with
  | MAIN_DISPATCHER =>
      match datapaths self !! dp_id datapath with
      | None =>
          logger_debug "register datapath: %016x" [ArgInt (dp_id datapath)];;
          mret {| awareness := awareness self;
                  datapaths := <[dp_id datapath := datapath]> (datapaths self) |}
      | Some _ => mret self
      end
  | DEAD_DISPATCHER =>
      match datapaths self !! dp_id datapath with
      | Some _ =>
          logger_debug "unregister datapath: %016x" [ArgInt (dp_id datapath)];;
          mret {| awareness := awareness self;
                  datapaths := delete (dp_id datapath) (datapaths self) |}
      | None => mret self
      end
  end.

(** ** Rule and packet-out emission *)

Section Handlers.

Variable ofp : ofproto.

(** [datapath.ofproto]. *)
Definition dp_ofproto (_ : datapath) : ofproto := ofp.

(** [add_flow]: send a flow entry to the datapath. *)
Definition add_flow (dp : datapath) (p : Z) (match_ : OFPMatch)
    (actions : list action) (idle_timeout hard_timeout : Z) : M unit :=
  let ofproto := dp_ofproto dp in
  let inst := [OFPInstructionActions (OFPIT_APPLY_ACTIONS ofproto) actions] in
  let mod_ := {| priority := p;
                 idle_timeout := idle_timeout;
                 hard_timeout := hard_timeout;
                 fm_match := match_;
                 instructions := inst |} in
  send_msg dp (Some (FlowMod mod_)).

(** [send_flow_mod]: [flow_info] is read at indices 0, 1 and 2 only, so the
    4-tuple [flow_info] and the 3-tuple [back_info] are both passed as the
    triple of those components. *)
Definition send_flow_mod (datapath : datapath) (flow_info : Z * string * string)
    (src_port dst_port : Z) : M unit :=
  let actions := [] ++ [OFPActionOutput dst_port] in
  let match_ := {| in_port := src_port;
                   eth_type := flow_info.1.1;
                   ipv4_src := flow_info.1.2;
                   ipv4_dst := flow_info.2 |} in
  add_flow datapath 1 match_ actions 15 60.

(** [_build_packet_out]: [if dst_port:] is false for port 0. *)
Definition _build_packet_out (datapath : datapath) (buffer_id src_port dst_port : Z)
    (data : option payload) : option OFPPacketOut :=
  let actions := if decide (dst_port = 0) then []
                 else [] ++ [OFPActionOutput dst_port] in
  let build msg_data := Some {| po_buffer_id := buffer_id;
                                po_data := msg_data;
                                po_in_port := src_port;
                                po_actions := actions |} in
  if decide (buffer_id = OFP_NO_BUFFER (dp_ofproto datapath)) then
    match data with
    | None => None
    | Some d => build (Some d)
    end
  else build None.

(** [send_packet_out]: nothing is sent when no packet-out was built. *)
Definition send_packet_out (datapath : datapath) (buffer_id src_port dst_port : Z)
    (data : option payload) : M unit :=
  let out := _build_packet_out datapath buffer_id src_port dst_port data in
  match out with
  | Some o => send_msg datapath (Some (PacketOut o))
  | None => mret tt
  end.

(** ** Port resolution *)

(** The loop of [get_port] over [access_table.keys()]. *)
Fixpoint get_port_loop (dst_ip : string)
    (access_table : list ((Z * Z) * (string * string)))
    (ks : list (Z * Z)) : result (option Z) :=
  match ks with
  | [] => Ok None
  | key :: ks' =>
      v ← dict_getitem access_table key;
      if decide (dst_ip = v.1) then
        let dst_port := key.2 in Ok (Some dst_port)
      else get_port_loop dst_ip access_table ks'
  end.

(** [get_port]: the values of the table are [(ip, mac)] tuples, so the
    [isinstance] test holds whenever the table is not empty. *)
Definition get_port (dst_ip : string)
    (access_table : list ((Z * Z) * (string * string))) : result (option Z) :=
  match access_table with
  | [] => Ok None
  | _ :: _ => get_port_loop dst_ip access_table (keys access_table)
  end.

Definition get_port_pair_from_link (link_to_port : gmap (Z * Z) (Z * Z))
    (src_dpid dst_dpid : Z) : M (option (Z * Z)) :=
  match link_to_port !! (src_dpid, dst_dpid) with
  | Some port_pair => mret (Some port_pair)
  | None =>
      logger_info "dpid:%s->dpid:%s is not in links"
                  [ArgInt src_dpid; ArgInt dst_dpid];;
      mret None
  end.

(** ** Host resolution and flooding *)

(** The body of the inner loop of [flood], for access port [port] of [dpid]. *)
Definition flood_port (self : ShortestForwarding) (msg : packet_in)
    (dpid port : Z) : M unit :=
  let ofproto := dp_ofproto (msg_datapath msg) in
  if bool_decide ((dpid, port) ∈ keys (access_table (awareness self)))
  then mret tt
  else
    datapath ← lift (getitem (datapaths self) dpid);
    let out := _build_packet_out datapath (OFP_NO_BUFFER ofproto)
                 (OFPP_CONTROLLER ofproto) port (Some (msg_data msg)) in
    send_msg datapath (PacketOut <$> out).

Definition flood (self : ShortestForwarding) (msg : packet_in) : M unit :=
  for_each (keys (access_ports (awareness self))) (λ dpid,
    ports ← lift (dict_getitem (access_ports (awareness self)) dpid);
    for_each ports (flood_port self msg dpid));;
  logger_debug "Flooding msg" [].

Definition arp_forwarding (self : ShortestForwarding) (msg : packet_in)
    (src_ip dst_ip : string) : M unit :=
  let datapath := msg_datapath msg in
  let ofproto := dp_ofproto datapath in
  let result := get_host_location (access_table (awareness self)) dst_ip in
  match result with
  | Some (datapath_dst, out_port) =>
      datapath ← lift (getitem (datapaths self) datapath_dst);
      let out := _build_packet_out datapath (OFP_NO_BUFFER ofproto)
                   (OFPP_CONTROLLER ofproto) out_port (Some (msg_data msg)) in
      send_msg datapath (PacketOut <$> out);;
      logger_debug "Reply ARP to knew host" []
  | None => flood self msg
  end.

(** ** Path lookup and switch resolution *)

(** [shortest_paths.get(src).get(dst)[0]]: [.get] yields [None] for a missing
    key, and then [None.get] raises [AttributeError], [None[0]] raises
    [TypeError]. *)
Definition get_path (self : ShortestForwarding) (src dst : Z) : result (list Z) :=
  match shortest_paths (awareness self) !! src with
  | None => Raise AttributeError
  | Some row =>
      match row !! dst with
      | None => Raise TypeError
      | Some paths => list_getitem paths 0
      end
  end.

(** [get_sw]: [None] is the early [return None]; the second component of the
    pair is [dst_sw], which stays [None] for an unlearned destination. *)
Definition get_sw (self : ShortestForwarding) (dpid in_port : Z) (src dst : string)
  : result (option (Z * option Z)) :=
  let finish (src_sw : Z) : result (option (Z * option Z)) :=
    let dst_location := get_host_location (access_table (awareness self)) dst in
    let dst_sw := match dst_location with
                  | Some loc => Some loc.1
                  | None => None
                  end in
    Ok (Some (src_sw, dst_sw)) in
  let src_location := get_host_location (access_table (awareness self)) src in
  ports ← dict_getitem (access_ports (awareness self)) dpid;
  if bool_decide (in_port ∈ ports) then
    match src_location with
    | Some loc =>
        if decide ((dpid, in_port) = loc) then finish loc.1 else Ok None
    | None => Ok None
    end
  else finish dpid.

(** ** Flow Installation Engine *)

(** The body of the [inter_link] loop of [install_flow] at index [i]. *)
Definition inter_link (datapaths : gmap Z datapath)
    (link_to_port : gmap (Z * Z) (Z * Z)) (path : list Z)
    (flow_info back_info : Z * string * string) (i : Z) : M unit :=
  prev ← lift (list_getitem path (i - 1));
  cur ← lift (list_getitem path i);
  port ← get_port_pair_from_link link_to_port prev cur;
  cur ← lift (list_getitem path i);
  next ← lift (list_getitem path (i + 1));
  port_next ← get_port_pair_from_link link_to_port cur next;
  match port, port_next with
  | Some port, Some port_next =>
      let src_port := port.2 in
      let dst_port := port_next.1 in
      cur ← lift (list_getitem path i);
      datapath ← lift (getitem datapaths cur);
      send_flow_mod datapath flow_info src_port dst_port;;
      send_flow_mod datapath back_info dst_port src_port;;
      logger_debug "inter_link flow install" []
  | _, _ => mret tt
  end.

(** The [# inter_link] block of [install_flow]. *)
Definition inter_links (datapaths : gmap Z datapath)
    (link_to_port : gmap (Z * Z) (Z * Z)) (path : list Z)
    (flow_info back_info : Z * string * string) : M unit :=
  let len := Z.of_nat (length path) in
  if decide (len > 2)
  then for_each (range 1 (len - 1))
         (inter_link datapaths link_to_port path flow_info back_info)
  else mret tt.

(** [install_flow]: [flow_info = (eth_type, src_ip, dst_ip, in_port)]; each
    [return] of the source ends the corresponding branch. *)
Definition install_flow (datapaths : gmap Z datapath)
    (link_to_port : gmap (Z * Z) (Z * Z))
    (access_table : list ((Z * Z) * (string * string)))
    (path : option (list Z)) (flow_info : Z * string * string * Z)
    (buffer_id : Z) (data : option payload) : M unit :=
  match path with
  | None => logger_info "Path error!" []
  | Some path =>
      let len := Z.of_nat (length path) in
      if decide (len = 0) then logger_info "Path error!" []
      else
        let '(eth, ip_src, ip_dst, in_port) := flow_info in
        let flow_info := (eth, ip_src, ip_dst) in
        first ← lift (list_getitem path 0);
        first_dp ← lift (getitem datapaths first);
        let out_port := OFPP_LOCAL (dp_ofproto first_dp) in
        let back_info := (eth, ip_dst, ip_src) in
        inter_links datapaths link_to_port path flow_info back_info;;
        if decide (len > 1) then
          before_last ← lift (list_getitem path (-2));
          last ← lift (list_getitem path (-1));
          port_pair ← get_port_pair_from_link link_to_port before_last last;
          match port_pair with
          | None => logger_info "Port is not found" []
          | Some port_pair =>
              let src_port := port_pair.2 in
              dst_port ← lift (get_port ip_dst access_table);
              match dst_port with
              | None => logger_info "Last port is not found." []
              | Some dst_port =>
                  last ← lift (list_getitem path (-1));
                  last_dp ← lift (getitem datapaths last);
                  send_flow_mod last_dp flow_info src_port dst_port;;
                  send_flow_mod last_dp back_info dst_port src_port;;
                  first ← lift (list_getitem path 0);
                  second ← lift (list_getitem path 1);
                  port_pair ← get_port_pair_from_link link_to_port first second;
                  match port_pair with
                  | None => logger_info "Port not found in first hop." []
                  | Some port_pair =>
                      let out_port := port_pair.1 in
                      send_flow_mod first_dp flow_info in_port out_port;;
                      send_flow_mod first_dp back_info out_port in_port;;
                      send_packet_out first_dp buffer_id in_port out_port data
                  end
              end
          end
        else
          out_port ← lift (get_port ip_dst access_table);
          match out_port with
          | None => logger_info "Out_port is None in same dp" []
          | Some out_port =>
              send_flow_mod first_dp flow_info in_port out_port;;
              send_flow_mod first_dp back_info out_port in_port;;
              send_packet_out first_dp buffer_id in_port out_port data
          end
  end.

(** [shortest_forwarding]: [if result:] fails only for [None] (a pair is
    true), [if dst_sw:] fails for [None] and for switch id 0. *)
Definition shortest_forwarding (self : ShortestForwarding) (msg : packet_in)
    (eth_type : Z) (ip_src ip_dst : string) : M unit :=
  let datapath := msg_datapath msg in
  let in_port := msg_in_port msg in
  result ← lift (get_sw self (dp_id datapath) in_port ip_src ip_dst);
  match result with
  | Some (src_sw, Some dst_sw) =>
      if decide (dst_sw = 0) then mret tt
      else
        path ← lift (get_path self src_sw dst_sw);
        logger_info "[PATH]%s<-->%s: %s"
                    [ArgStr ip_src; ArgStr ip_dst; ArgPath path];;
        let flow_info := (eth_type, ip_src, ip_dst, in_port) in
        install_flow (datapaths self)
                     (link_to_port (awareness self))
                     (access_table (awareness self)) (Some path)
                     flow_info (msg_buffer_id msg) (Some (msg_data msg))
  | Some (_, None) => mret tt
  | None => mret tt
  end.

(** ** Packet triage *)

(** The protocol headers the external decoder found in [msg.data]. *)
Record packet : Type := {
  arp_pkt : option (string * string);
  ip_pkt : option (string * string);
  ethernet_pkts : list Z
}.

Definition _packet_in_handler (self : ShortestForwarding) (msg : packet_in)
    (pkt : packet) : M unit :=
  match arp_pkt pkt with
  | Some (src_ip, dst_ip) =>
      logger_debug "ARP processing" [];;
      arp_forwarding self msg src_ip dst_ip
  | None => mret tt
  end;;
  match ip_pkt pkt with
  | Some (src, dst) =>
      logger_debug "IPV4 processing" [];;
      match ethernet_pkts pkt with
      | eth_type :: _ => shortest_forwarding self msg eth_type src dst
      | [] => mret tt
      end
  | None => mret tt
  end.

End Handlers.

(** ** Small runs *)

Definition dp (i : Z) : datapath := {| dp_id := i |}.

Definition registry (ids : list Z) : gmap Z datapath :=
  list_to_map ((λ i, (i, dp i)) <$> ids).

Definition links3 : gmap (Z * Z) (Z * Z) :=
  list_to_map [((1, 2), (12, 21)); ((2, 1), (21, 12));
               ((2, 3), (23, 32)); ((3, 2), (32, 23))].

Definition hosts3 : list ((Z * Z) * (string * string)) :=
  [((1, 5), ("10.0.0.1"%string, "00:00:00:00:00:01"%string));
   ((3, 7), ("10.0.0.3"%string, "00:00:00:00:00:03"%string))].

Definition flow13 : Z * string * string * Z :=
  (0x0800, "10.0.0.1"%string, "10.0.0.3"%string, 5).

Definition h1 : string := "10.0.0.1".
Definition h3 : string := "10.0.0.3".

Definition ports3 : list (Z * list Z) := [(1, [5]); (3, [7])].

(** Three switches in a line, a host at each end, no shortest path known. *)
Definition net3_no_paths : ShortestForwarding :=
  {| awareness := {| access_ports := ports3;
                     access_table := hosts3;
                     link_to_port := links3;
                     shortest_paths := ∅ |};
     datapaths := registry [1; 2; 3] |}.

(** The same network, knowing paths from switch 1 to switch 2 only. *)
Definition net3_row_only : ShortestForwarding :=
  {| awareness := {| access_ports := ports3;
                     access_table := hosts3;
                     link_to_port := links3;
                     shortest_paths := {[ 1 := {[ 2 := [[1; 2]] ]} ]} |};
     datapaths := registry [1; 2; 3] |}.

(** A first packet of host 1, entering switch 1 at port 5. *)
Definition msg15 : packet_in :=
  {| msg_datapath := dp 1; msg_in_port := 5; msg_buffer_id := 42; msg_data := [] |}.

(** The same packet entering at access port 5 of switch 3, where the table
    records no host. *)
Definition ports3_wide : list (Z * list Z) := [(1, [5]); (3, [5; 7])].

Definition net3_wide : ShortestForwarding :=
  {| awareness := {| access_ports := ports3_wide;
                     access_table := hosts3;
                     link_to_port := links3;
                     shortest_paths := ∅ |};
     datapaths := registry [1; 2; 3] |}.

Definition msg35 : packet_in :=
  {| msg_datapath := dp 3; msg_in_port := 5; msg_buffer_id := 42; msg_data := [] |}.

(** The topology of the flooding example: switch 7 with access ports 1, 2 and
    3, a host known at port 1 only. *)
Definition net7 : ShortestForwarding :=
  {| awareness := {| access_ports := [(7, [1; 2; 3])];
                     access_table := [((7, 1), (h1, "00:00:00:00:00:01"%string))];
                     link_to_port := ∅;
                     shortest_paths := ∅ |};
     datapaths := registry [7] |}.

(** The host-location example: H2 is recorded at port 3 of switch 7. *)
Definition h2 : string := "10.0.0.2".

Definition net7_h2 : ShortestForwarding :=
  {| awareness := {| access_ports := [(7, [1; 2; 3])];
                     access_table := [((7, 3), (h2, "00:00:00:00:00:02"%string))];
                     link_to_port := ∅;
                     shortest_paths := ∅ |};
     datapaths := registry [7] |}.

Definition msg71 : packet_in :=
  {| msg_datapath := dp 7; msg_in_port := 1; msg_buffer_id := 42;
     msg_data := [Byte.x61; Byte.x72; Byte.x70] |}.

(** Switch 7 with its access ports, no host known, and no handle registered
    for it. *)
Definition net7_unregistered : ShortestForwarding :=
  {| awareness := {| access_ports := [(7, [1; 2; 3])];
                     access_table := [];
                     link_to_port := ∅;
                     shortest_paths := ∅ |};
     datapaths := ∅ |}.

(** Four switches in a line; the adjacency between switches 1 and 2 is not in
    the link-port mapping. *)
Definition h4 : string := "10.0.0.4".

Definition links4 : gmap (Z * Z) (Z * Z) :=
  list_to_map [((2, 3), (23, 32)); ((3, 2), (32, 23));
               ((3, 4), (34, 43)); ((4, 3), (43, 34))].

Definition hosts4 : list ((Z * Z) * (string * string)) :=
  [((1, 5), (h1, "00:00:00:00:00:01"%string));
   ((4, 9), (h4, "00:00:00:00:00:04"%string))].

(** One switch with two hosts, which knows the path from itself to itself. *)
Definition net1 : ShortestForwarding :=
  {| awareness := {| access_ports := [(1, [5; 6])];
                     access_table := [((1, 5), (h1, "00:00:00:00:00:01"%string));
                                      ((1, 6), (h2, "00:00:00:00:00:02"%string))];
                     link_to_port := ∅;
                     shortest_paths := {[ 1 := {[ 1 := [[1]] ]} ]} |};
     datapaths := registry [1] |}.

(** A destination host recorded on the switch with id 0. *)
Definition net01 : ShortestForwarding :=
  {| awareness := {| access_ports := [(1, [5]); (0, [7])];
                     access_table := [((1, 5), (h1, "00:00:00:00:00:01"%string));
                                      ((0, 7), (h3, "00:00:00:00:00:03"%string))];
                     link_to_port := ∅;
                     shortest_paths := ∅ |};
     datapaths := registry [0; 1] |}.

(** Every access point has its host, and no switch is registered. *)
Definition net7_known : ShortestForwarding :=
  {| awareness := {| access_ports := [(7, [3])];
                     access_table := [((7, 3), (h2, "00:00:00:00:00:02"%string))];
                     link_to_port := ∅;
                     shortest_paths := ∅ |};
     datapaths := ∅ |}.


(** Five switches in a line; the adjacency between switches 2 and 3 is not in
    the link-port mapping. *)
Definition h5 : string := "10.0.0.5".

Definition links5 : gmap (Z * Z) (Z * Z) :=
  list_to_map [((1, 2), (12, 21)); ((2, 1), (21, 12));
               ((3, 4), (34, 43)); ((4, 3), (43, 34));
               ((4, 5), (45, 54)); ((5, 4), (54, 45))].

Definition hosts5 : list ((Z * Z) * (string * string)) :=
  [((1, 5), (h1, "00:00:00:00:00:01"%string));
   ((5, 9), (h5, "00:00:00:00:00:05"%string))].

(** ** Observations on traces *)

(** [emits m r out]: from any trace, [m] ends with result [r] having appended
    exactly [out]. *)
Definition emits {A : Type} (m : M A) (r : result A) (out : trace) : Prop :=
  ∀ t, m t = (r, t ++ out).

(** [m] ends normally or by raising [e]. *)
Definition ok_or {A : Type} (e : exn) (m : M A) : Prop :=
  ∃ r o, emits m r o ∧ ((∃ a, r = Ok a) ∨ r = Raise e).

(** [m] ends by raising [e]. *)
Definition raises {A : Type} (e : exn) (m : M A) : Prop :=
  ∃ o, emits m (Raise e) o.

(** [m] appends some output that satisfies [P]. *)
Definition emits_with (P : trace → Prop) {A : Type} (m : M A) : Prop :=
  ∃ r out, emits m r out ∧ P out.

(** The forwarding rule of the reference policy (priority 1, idle timeout 15,
    hard timeout 60): packets of [eth] from [a] to [b] entering at port [p]
    leave by port [q]. *)
Definition rule (ofp : ofproto) (eth p : Z) (a b : string) (q : Z) : ofp_msg :=
  FlowMod {| priority := 1; idle_timeout := 15; hard_timeout := 60;
             fm_match := {| in_port := p; eth_type := eth;
                            ipv4_src := a; ipv4_dst := b |};
             instructions := [OFPInstructionActions (OFPIT_APPLY_ACTIONS ofp)
                                                    [OFPActionOutput q]] |}.

(** The forward-only directive: the payload, from the controller port, out of
    [port]; no buffer reference. *)
Definition directive (ofp : ofproto) (port : Z) (data : payload) : ofp_msg :=
  PacketOut {| po_buffer_id := OFP_NO_BUFFER ofp;
               po_data := Some data;
               po_in_port := OFPP_CONTROLLER ofp;
               po_actions := [OFPActionOutput port] |}.

(** The access ports of switch [dpid]: [access_ports[dpid]], none for a switch
    the topology does not know. *)
Definition ports_of (aw : NetworkAwareness) (dpid : Z) : list Z :=
  default [] (assoc (access_ports aw) dpid).

(** The access points of the topology, switch by switch. *)
Definition access_points (aw : NetworkAwareness) : list (Z * Z) :=
  flat_map (λ dpid, (λ port, (dpid, port)) <$> ports_of aw dpid)
           (keys (access_ports aw)).

(** The access points that have no Host Location Table entry. *)
Definition unknown_access_points (aw : NetworkAwareness) : list (Z * Z) :=
  filter (λ ap, ap ∉ keys (access_table aw)) (access_points aw).

(** [e] is the forward-only directive that carries [data] out of access point
    [ap], written to the handle registered for the switch of [ap]. *)
Definition floods_to (ofp : ofproto) (dps : gmap Z datapath) (data : payload)
    (e : event) (ap : Z * Z) : Prop :=
  ∃ d, dps !! ap.1 = Some d ∧ e = Send d (directive ofp ap.2 data).

(** The record [get_port_pair_from_link] logs for a missing adjacency. *)
Definition not_in_links (a b : Z) : event :=
  Log (LogInfo "dpid:%s->dpid:%s is not in links" [ArgInt a; ArgInt b]).

(** The forwarding rules of a trace, with the handle each was written to. *)
Definition rules (out : trace) : list (datapath * OFPFlowMod) :=
  omap (λ e, match e with
             | Send d (FlowMod fm) => Some (d, fm)
             | _ => None
             end) out.

(** The rules written to switch [s]. *)
Definition rules_on (s : Z) (out : trace) : list (datapath * OFPFlowMod) :=
  filter (λ r, dp_id r.1 = s) (rules out).

(** The packet-outs of a trace, with the handle each was written to. *)
Definition packet_outs (out : trace) : list (datapath * OFPPacketOut) :=
  omap (λ e, match e with
             | Send d (PacketOut o) => Some (d, o)
             | _ => None
             end) out.

(** [g] is what the interior hop at index [i] of [path] installs: the forward
    and the reverse rule between the two link ports, on the handle registered
    for the switch at that index, and the debug record. *)
Definition hop_rules (ofp : ofproto) (dps : gmap Z datapath) (path : list Z)
    (eth : Z) (src dst : string) (g : trace) (i : Z) : Prop :=
  ∃ b d p q,
    path !! Z.to_nat i = Some b ∧ dps !! b = Some d ∧
    g = [Send d (rule ofp eth p src dst q);
         Send d (rule ofp eth q dst src p);
         Log (LogDebug "inter_link flow install" [])].

(** An event that address-resolution handling may write: a log record, or a
    packet-out that carries [data] from the controller port with no buffer
    reference; never a rule. *)
Definition is_directive (ofp : ofproto) (data : payload) (e : event) : Prop :=
  match e with
  | Log _ => True
  | Send _ (PacketOut o) =>
      po_buffer_id o = OFP_NO_BUFFER ofp ∧ po_data o = Some data ∧
      po_in_port o = OFPP_CONTROLLER ofp
  | Send _ (FlowMod _) => False
  end.

(** An event that the installation of the flow [(eth, src, dst)] over [path]
    may write: a log record, or a message on a handle that the registry holds
    for a switch of the path, which if it is a rule matches the flow's
    addresses in one of the two directions. *)
Definition on_path (ofp : ofproto) (dps : gmap Z datapath) (path : list Z)
    (eth : Z) (src dst : string) (e : event) : Prop :=
  match e with
  | Log _ => True
  | Send d m =>
      (∃ s, s ∈ path ∧ dps !! s = Some d) ∧
      match m with
      | FlowMod _ => ∃ p q, m = rule ofp eth p src dst q ∨
                            m = rule ofp eth p dst src q
      | PacketOut _ => True
      end
  end.


(** Every rule of the trace has its reverse on the same handle. *)
Definition both_directions (ofp : ofproto) (out : trace) : Prop :=
  ∀ d fm, Send d (FlowMod fm) ∈ out →
    ∃ eth p a b q, FlowMod fm = rule ofp eth p a b q ∧
                   Send d (rule ofp eth q b a p) ∈ out.

(** * Reasoning about handlers *)


Lemma bind_run {A B : Type} (m : M A) (k : A → M B) (t : trace) :
  (m ≫= k) t = match m t with
               | (Ok a, t') => k a t'
               | (Raise e, t') => (Raise e, t')
               end.
Proof. reflexivity. Qed.

Lemma emits_ret {A : Type} (a : A) : emits (mret a) (Ok a) [].
Proof. intros t. by rewrite app_nil_r. Qed.

Lemma emits_lift {A : Type} (r : result A) : emits (lift r) r [].
Proof. intros t. unfold lift. by rewrite app_nil_r. Qed.

Lemma emits_emit (e : event) : emits (emit e) (Ok tt) [e].
Proof. by intros t. Qed.

Lemma emits_bind_ok {A B : Type} (m : M A) (k : A → M B) a o1 r o2 :
  emits m (Ok a) o1 → emits (k a) r o2 → emits (m ≫= k) r (o1 ++ o2).
Proof. intros Hm Hk t. by rewrite bind_run, Hm, Hk, app_assoc. Qed.

Lemma emits_bind_raise {A B : Type} (m : M A) (k : A → M B) e o :
  emits m (Raise e) o → emits (m ≫= k) (Raise e) o.
Proof. intros Hm t. by rewrite bind_run, Hm. Qed.

Lemma emits_bind_lift {A B : Type} (a : A) (k : A → M B) r o :
  emits (k a) r o → emits (lift (Ok a) ≫= k) r o.
Proof. intros Hk t. rewrite bind_run. unfold lift. apply Hk. Qed.

Lemma bind_lift_ok {A B : Type} (a : A) (k : A → M B) : lift (Ok a) ≫= k = k a.
Proof. reflexivity. Qed.

Lemma emits_bind_lift_raise {A B : Type} (e : exn) (k : A → M B) :
  emits (lift (Raise e) ≫= k) (Raise e) [].
Proof. apply emits_bind_raise, emits_lift. Qed.

Lemma emits_inj {A : Type} (m : M A) r1 o1 r2 o2 :
  emits m r1 o1 → emits m r2 o2 → r1 = r2 ∧ o1 = o2.
Proof.
  intros H1 H2. specialize (H1 []). specialize (H2 []).
  rewrite H1 in H2. simpl in H2. by injection H2.
Qed.

(** Handlers whose output satisfies a property that holds of the empty trace
    and is kept by concatenation. *)
Section Closed.

Variable P : trace → Prop.
Hypothesis P_nil : P [].
Hypothesis P_app : ∀ o1 o2, P o1 → P o2 → P (o1 ++ o2).

Lemma emits_with_ret {A : Type} (a : A) : emits_with P (mret a).
Proof using P_nil. exists (Ok a), []. split; [apply emits_ret | done]. Qed.

Lemma emits_with_lift {A : Type} (r : result A) : emits_with P (lift r).
Proof using P_nil. exists r, []. split; [apply emits_lift | done]. Qed.

Lemma emits_with_bind {A B : Type} (m : M A) (k : A → M B) :
  emits_with P m → (∀ a, emits_with P (k a)) → emits_with P (m ≫= k).
Proof using P_app.
  intros (r & o1 & Hm & HP1) Hk. destruct r as [a|e].
  - destruct (Hk a) as (r & o2 & Hka & HP2).
    exists r, (o1 ++ o2). split; [by eapply emits_bind_ok | by apply P_app].
  - exists (Raise e), o1. split; [by apply emits_bind_raise | done].
Qed.

Lemma emits_with_for_each {A : Type} (l : list A) (body : A → M unit) :
  (∀ x, emits_with P (body x)) → emits_with P (for_each l body).
Proof using P_nil P_app.
  intros Hbody. induction l as [|x l IH]; simpl.
  - apply emits_with_ret.
  - apply emits_with_bind; [apply Hbody | intros _; apply IH].
Qed.

Lemma emits_with_emit (e : event) : P [e] → emits_with P (emit e).
Proof. intros He. exists (Ok tt), [e]. split; [apply emits_emit | done]. Qed.

End Closed.

(** ** Emission primitives *)

Section Emission.

Variable ofp : ofproto.

Lemma send_flow_mod_emits d eth a b p q :
  emits (send_flow_mod ofp d (eth, a, b) p q) (Ok tt) [Send d (rule ofp eth p a b q)].
Proof. by intros t. Qed.

Lemma rule_pair_emits {A : Type} d eth a b p q (rest : M A) r o :
  emits rest r o →
  emits (send_flow_mod ofp d (eth, a, b) p q;;
         send_flow_mod ofp d (eth, b, a) q p;; rest) r
        ([Send d (rule ofp eth p a b q); Send d (rule ofp eth q b a p)] ++ o).
Proof.
  intros Hrest.
  apply (emits_bind_ok _ _ tt [_] r (_ :: o)); [apply send_flow_mod_emits|].
  apply (emits_bind_ok _ _ tt [_] r o); [apply send_flow_mod_emits | done].
Qed.

Lemma send_packet_out_emits d bid p q data :
  emits (send_packet_out ofp d bid p q data) (Ok tt)
        (match _build_packet_out ofp d bid p q data with
         | Some o => [Send d (PacketOut o)]
         | None => []
         end).
Proof.
  unfold send_packet_out. destruct (_build_packet_out _ _ _ _ _ _).
  - apply emits_emit.
  - apply emits_ret.
Qed.

Lemma get_port_pair_from_link_emits ltp a b :
  emits (get_port_pair_from_link ltp a b) (Ok (ltp !! (a, b)))
        (match ltp !! (a, b) with
         | Some _ => []
         | None => [not_in_links a b]
         end).
Proof.
  unfold get_port_pair_from_link. destruct (ltp !! (a, b)).
  - apply emits_ret.
  - apply (emits_bind_ok _ _ tt [_] _ []); [apply emits_emit | apply emits_ret].
Qed.

(** *** Every handler appends to the trace it is given *)

Section ClosedHandlers.

Variable P : trace → Prop.
Hypothesis P_nil : P [].
Hypothesis P_app : ∀ o1 o2, P o1 → P o2 → P (o1 ++ o2).
Hypothesis P_log : ∀ r, P [Log r].
Hypothesis P_pair : ∀ d eth p a b q,
  P [Send d (rule ofp eth p a b q); Send d (rule ofp eth q b a p)].
Hypothesis P_packet_out : ∀ d o, P [Send d (PacketOut o)].

Lemma rule_pair_emits_with {A : Type} d eth a b p q (rest : M A) :
  emits_with P rest →
  emits_with P (send_flow_mod ofp d (eth, a, b) p q;;
                send_flow_mod ofp d (eth, b, a) q p;; rest).
Proof using P_app P_pair.
  intros (r & o & Hrest & Ho). eexists _, _. split.
  - by apply rule_pair_emits.
  - by apply P_app.
Qed.

Lemma logger_info_emits_with fmt args : emits_with P (logger_info fmt args).
Proof using P_log. by apply emits_with_emit. Qed.

Lemma logger_debug_emits_with fmt args : emits_with P (logger_debug fmt args).
Proof using P_log. by apply emits_with_emit. Qed.

Lemma send_packet_out_emits_with d bid p q data :
  emits_with P (send_packet_out ofp d bid p q data).
Proof using P_nil P_packet_out.
  eexists _, _. split; [apply send_packet_out_emits|]. by case_match.
Qed.

Lemma get_port_pair_from_link_emits_with ltp a b :
  emits_with P (get_port_pair_from_link ltp a b).
Proof using P_nil P_log.
  eexists _, _. split; [apply get_port_pair_from_link_emits|].
  case_match; [done | apply P_log].
Qed.

Ltac closed_step :=
  first
    [ apply rule_pair_emits_with
    | apply logger_info_emits_with
    | apply logger_debug_emits_with
    | apply send_packet_out_emits_with
    | apply get_port_pair_from_link_emits_with
    | apply emits_with_lift; assumption
    | apply emits_with_ret; assumption
    | apply emits_with_bind; [assumption | | intros ?]
    | case_match
    | case_decide ].

Lemma inter_link_emits_with dps ltp path eth a b i :
  emits_with P (inter_link ofp dps ltp path (eth, a, b) (eth, b, a) i).
Proof using P_nil P_app P_log P_pair.
  unfold inter_link. repeat closed_step.
Qed.

Lemma inter_links_emits_with dps ltp path eth a b :
  emits_with P (inter_links ofp dps ltp path (eth, a, b) (eth, b, a)).
Proof using P_nil P_app P_log P_pair.
  unfold inter_links. case_decide; [|by apply emits_with_ret].
  apply emits_with_for_each; [done..|]. intros i. apply inter_link_emits_with.
Qed.

Lemma install_flow_emits_with dps ltp tbl path fi bid data :
  emits_with P (install_flow ofp dps ltp tbl path fi bid data).
Proof using P_nil P_app P_log P_pair P_packet_out.
  unfold install_flow. destruct path as [path|]; [|closed_step].
  case_decide; [closed_step|]. destruct fi as [[[eth a] b] p].
  do 3 closed_step; [apply inter_links_emits_with|].
  repeat closed_step.
Qed.

End ClosedHandlers.

End Emission.

(** ** Switch Registry *)

(** X1: a state-change event keeps the invariant of the registry that every
    handle is stored under its own id. *)
Lemma _state_change_handler_ids self ev_datapath ev_state t :
  (∀ s h, datapaths self !! s = Some h → dp_id h = s) →
  ∃ self' t',
    _state_change_handler self ev_datapath ev_state t = (Ok self', t') ∧
    awareness self' = awareness self ∧
    ∀ s h, datapaths self' !! s = Some h → dp_id h = s.
Proof.
  intros Hids. unfold _state_change_handler.
  destruct ev_state, (datapaths self !! dp_id ev_datapath) eqn:Hdp;
    eexists _, _; (split; [reflexivity|]); (split; [reflexivity|]);
    try exact Hids; simpl; intros s h.
  - destruct (decide (dp_id ev_datapath = s)) as [<-|Hne].
    + rewrite lookup_insert_eq. by intros [= <-].
    + rewrite lookup_insert_ne by done. apply Hids.
  - destruct (decide (dp_id ev_datapath = s)) as [<-|Hne].
    + by rewrite lookup_delete_eq.
    + rewrite lookup_delete_ne by done. apply Hids.
Qed.

(** ** Both directions *)

Lemma both_directions_nil ofp : both_directions ofp [].
Proof. intros d fm Hin. by apply elem_of_nil in Hin. Qed.

Lemma both_directions_app ofp o1 o2 :
  both_directions ofp o1 → both_directions ofp o2 → both_directions ofp (o1 ++ o2).
Proof.
  intros H1 H2 d fm [Hin|Hin]%elem_of_app.
  - destruct (H1 d fm Hin) as (eth & p & a & b & q & Heq & Hrev).
    exists eth, p, a, b, q. split; [done|]. apply elem_of_app. by left.
  - destruct (H2 d fm Hin) as (eth & p & a & b & q & Heq & Hrev).
    exists eth, p, a, b, q. split; [done|]. apply elem_of_app. by right.
Qed.

Lemma both_directions_log ofp r : both_directions ofp [Log r].
Proof. intros d fm Hin. apply list_elem_of_singleton in Hin. discriminate. Qed.

Lemma both_directions_packet_out ofp d o : both_directions ofp [Send d (PacketOut o)].
Proof. intros d' fm Hin. apply list_elem_of_singleton in Hin. discriminate. Qed.

Lemma both_directions_pair ofp d eth p a b q :
  both_directions ofp [Send d (rule ofp eth p a b q); Send d (rule ofp eth q b a p)].
Proof.
  intros d' fm Hin. apply elem_of_cons in Hin as [Heq|Hin].
  - injection Heq as -> ->. exists eth, p, a, b, q. split; [done|].
    apply elem_of_cons. right. apply elem_of_cons. by left.
  - apply list_elem_of_singleton in Hin. injection Hin as -> ->.
    exists eth, q, b, a, p. split; [done|]. apply elem_of_cons. by left.
Qed.

(** C3: whatever the path and the tables, and whether the installation
    completes, stops early or raises, every forwarding rule that
    [install_flow] submits (ingress port [p], source [a], destination [b],
    output port [q]) comes with the reverse rule (ingress port [q], source
    [b], destination [a], output port [p]) submitted on the same switch
    handle. *)
Theorem install_flow_both_directions ofp dps ltp tbl path fi bid data :
  ∃ r out,
    (∀ t, install_flow ofp dps ltp tbl path fi bid data t = (r, t ++ out)) ∧
    ∀ d fm, Send d (FlowMod fm) ∈ out →
      ∃ eth p a b q, FlowMod fm = rule ofp eth p a b q ∧
                     Send d (rule ofp eth q b a p) ∈ out.
Proof.
  destruct (install_flow_emits_with ofp (both_directions ofp)
              (both_directions_nil ofp) (both_directions_app ofp)
              (both_directions_log ofp) (both_directions_pair ofp)
              (both_directions_packet_out ofp)
              dps ltp tbl path fi bid data) as (r & out & Hrun & Hout).
  exists r, out. split; [exact Hrun | exact Hout].
Qed.

(** ** Repeated installation *)

(** C9: the result of [install_flow] and the sequence of rules and packet-outs
    it submits depend on its arguments only, not on what was written before:
    installing the same flow over the same path with the same tables a second
    time, right after the first, ends with the same result and submits
    exactly the same sequence again. *)
Theorem install_flow_twice ofp dps ltp tbl path fi bid data :
  ∃ r out, ∀ t,
    install_flow ofp dps ltp tbl path fi bid data t = (r, t ++ out) ∧
    install_flow ofp dps ltp tbl path fi bid data (t ++ out)
      = (r, (t ++ out) ++ out).
Proof.
  destruct (install_flow_emits_with ofp (λ _, True)) with
    (dps := dps) (ltp := ltp) (tbl := tbl) (path := path) (fi := fi)
    (bid := bid) (data := data) as (r & out & Hrun & _); try done.
  exists r, out. intros t. split; apply Hrun.
Qed.

(** ** Degenerate paths *)

(** C10: called with [path] equal to [None] or to the empty list,
    [install_flow] logs "Path error!" and returns: the log record is the only
    thing appended to the trace, so no forwarding rule is installed and no
    packet-out is sent. *)
Theorem install_flow_no_path ofp dps ltp tbl fi bid data t :
  install_flow ofp dps ltp tbl None fi bid data t
    = (Ok tt, t ++ [Log (LogInfo "Path error!" [])]) ∧
  install_flow ofp dps ltp tbl (Some []) fi bid data t
    = (Ok tt, t ++ [Log (LogInfo "Path error!" [])]).
Proof. split; reflexivity. Qed.

(** ** Path lookup *)

(** C4 as amended: when the shortest-path table has no entry for the pair,
    [get_path] raises a built-in exception, [AttributeError] when the source
    switch has no row and [TypeError] when its row lacks the destination;
    nothing catches it, so [shortest_forwarding] ends with that exception,
    having installed nothing. *)
Theorem get_path_no_entry ofp self src dst :
  shortest_paths (awareness self) !! src ≫= (.!! dst) = None →
  let e := match shortest_paths (awareness self) !! src with
           | None => AttributeError
           | Some _ => TypeError
           end in
  get_path self src dst = Raise e ∧
  ∀ msg eth ip_src ip_dst t,
    get_sw self (dp_id (msg_datapath msg)) (msg_in_port msg) ip_src ip_dst
      = Ok (Some (src, Some dst)) →
    dst ≠ 0 →
    shortest_forwarding ofp self msg eth ip_src ip_dst t = (Raise e, t).
Proof.
  intros Hno e.
  assert (Hpath : get_path self src dst = Raise e).
  { unfold get_path, e. destruct (shortest_paths (awareness self) !! src) as [row|];
      simpl in *; [by rewrite Hno | done]. }
  split; [done|]. intros msg eth ip_src ip_dst t Hsw Hdst.
  unfold shortest_forwarding. rewrite Hsw. rewrite bind_run. unfold lift.
  destruct (decide (dst = 0)); [done|]. by rewrite bind_run, Hpath.
Qed.

(** ** Switch resolution *)

Lemma get_sw_cases self dpid in_port src dst :
  get_sw self dpid in_port src dst =
    match assoc (access_ports (awareness self)) dpid with
    | None => Raise KeyError
    | Some ports =>
        if decide (in_port ∈ ports ∧
                   get_host_location (access_table (awareness self)) src
                     ≠ Some (dpid, in_port))
        then Ok None
        else Ok (Some (dpid, fst <$> get_host_location
                                       (access_table (awareness self)) dst))
    end.
Proof.
  unfold get_sw, dict_getitem.
  destruct (assoc (access_ports (awareness self)) dpid) as [ports|]; [|done].
  simpl. case_bool_decide as Hin.
  - destruct (get_host_location (access_table (awareness self)) src) as [loc|].
    + case_decide as Hloc.
      * subst loc. rewrite decide_False by (intros [_ ?]; done).
        by destruct (get_host_location _ dst).
      * rewrite decide_True; [done|]. split; [done|]. congruence.
    + by rewrite decide_True.
  - rewrite decide_False by (intros [? _]; done).
    by destruct (get_host_location _ dst).
Qed.

(** C5: [get_sw] returns [None] exactly in the mismatch case, the ingress
    port being a registered access port of the ingress switch that is not the
    access point the Host Location Table records for the source address.
    Otherwise it returns the ingress switch with the destination's switch,
    which is undefined for an unlearned destination.  In the mismatch case
    [shortest_forwarding] returns without installing anything, and so it does,
    without an error, for an unlearned destination. *)
Theorem get_sw_unresolvable ofp self dpid in_port src dst :
  let tbl := access_table (awareness self) in
  let mismatch :=
    ∃ ports, assoc (access_ports (awareness self)) dpid = Some ports ∧
             in_port ∈ ports ∧ get_host_location tbl src ≠ Some (dpid, in_port) in
  (get_sw self dpid in_port src dst = Ok None ↔ mismatch) ∧
  (is_Some (assoc (access_ports (awareness self)) dpid) → ¬ mismatch →
   get_sw self dpid in_port src dst
     = Ok (Some (dpid, fst <$> get_host_location tbl dst))) ∧
  ∀ msg eth t,
    dp_id (msg_datapath msg) = dpid → msg_in_port msg = in_port →
    (mismatch → shortest_forwarding ofp self msg eth src dst t = (Ok tt, t)) ∧
    (is_Some (assoc (access_ports (awareness self)) dpid) →
     get_host_location tbl dst = None →
     shortest_forwarding ofp self msg eth src dst t = (Ok tt, t)).
Proof.
  intros tbl mismatch.
  assert (Hnone : get_sw self dpid in_port src dst = Ok None ↔ mismatch).
  { rewrite get_sw_cases. unfold mismatch, tbl. split.
    - destruct (assoc (access_ports (awareness self)) dpid) as [ports|]; [|done].
      case_decide as Hm; [|done]. intros _. by exists ports.
    - intros (ports & -> & Hm). by rewrite decide_True. }
  assert (Hsome : is_Some (assoc (access_ports (awareness self)) dpid) →
                  ¬ mismatch →
                  get_sw self dpid in_port src dst
                    = Ok (Some (dpid, fst <$> get_host_location tbl dst))).
  { intros [ports Hports] Hm. rewrite get_sw_cases, Hports.
    rewrite decide_False; [done|]. intros Hm'. apply Hm. by exists ports. }
  split; [done|]. split; [done|].
  intros msg eth t Hdp Hport. split.
  - intros Hm%Hnone. unfold shortest_forwarding. by rewrite Hdp, Hport, Hm.
  - intros [ports Hports] Hdst. unfold shortest_forwarding.
    rewrite Hdp, Hport, get_sw_cases, Hports.
    case_decide; [done|]. unfold tbl in Hdst. by rewrite Hdst.
Qed.

(** ** Host resolution and flooding *)

Lemma get_host_location_Some tbl ip key :
  get_host_location tbl ip = Some key → ∃ mac, (key, (ip, mac)) ∈ tbl.
Proof.
  induction tbl as [|[k [ip' mac]] tbl IH]; simpl; [done|].
  case_decide as Hip.
  - intros [= ->]. subst ip'. exists mac. apply elem_of_cons. by left.
  - intros (mac' & Hin)%IH. exists mac'. apply elem_of_cons. by right.
Qed.

Lemma get_host_location_None tbl ip key mac :
  get_host_location tbl ip = None → (key, (ip, mac)) ∉ tbl.
Proof.
  induction tbl as [|[k [ip' mac']] tbl IH]; simpl.
  - intros _ Hin. by apply elem_of_nil in Hin.
  - case_decide as Hip; [done|]. intros Hno [Heq|Hin]%elem_of_cons.
    + injection Heq as -> -> ->. done.
    + by apply IH.
Qed.

Lemma build_directive ofp d port data :
  port ≠ 0 →
  PacketOut <$> _build_packet_out ofp d (OFP_NO_BUFFER ofp) (OFPP_CONTROLLER ofp)
                  port (Some data)
    = Some (directive ofp port data).
Proof.
  intros Hport. unfold _build_packet_out, dp_ofproto.
  by rewrite (decide_False _ _ Hport), decide_True.
Qed.

(** C8: when the Host Location Table records access point [(s, p)] for the
    destination address of an address-resolution packet, and switch [s] is
    registered with handle [d], [arp_forwarding] writes exactly one message:
    the forward-only directive that carries the packet's payload from the
    controller port out of port [p], on the handle of [s].  Nothing is
    flooded and no rule is installed. *)
Theorem arp_forwarding_known ofp self msg src_ip dst_ip s p d t :
  get_host_location (access_table (awareness self)) dst_ip = Some (s, p) →
  datapaths self !! s = Some d →
  p ≠ 0 →
  arp_forwarding ofp self msg src_ip dst_ip t
    = (Ok tt, t ++ [Send d (directive ofp p (msg_data msg));
                    Log (LogDebug "Reply ARP to knew host" [])]).
Proof.
  intros Hloc Hd Hp. unfold arp_forwarding. rewrite Hloc.
  rewrite bind_run. unfold lift, getitem. rewrite Hd.
  unfold dp_ofproto at 1 2. rewrite (build_directive ofp d p _ Hp).
  apply (emits_bind_ok _ _ tt [_] _ [_]); apply emits_emit.
Qed.

Lemma flood_port_known ofp self msg dpid port :
  (dpid, port) ∈ keys (access_table (awareness self)) →
  emits (flood_port ofp self msg dpid port) (Ok tt) [].
Proof.
  intros Hin. unfold flood_port. rewrite bool_decide_eq_true_2 by done.
  apply emits_ret.
Qed.

Lemma flood_port_unknown ofp self msg dpid port d :
  (dpid, port) ∉ keys (access_table (awareness self)) →
  datapaths self !! dpid = Some d →
  port ≠ 0 →
  emits (flood_port ofp self msg dpid port) (Ok tt)
        [Send d (directive ofp port (msg_data msg))].
Proof.
  intros Hin Hd Hp. unfold flood_port. rewrite bool_decide_eq_false_2 by done.
  unfold getitem. rewrite Hd. apply emits_bind_lift.
  unfold dp_ofproto. rewrite (build_directive ofp d port _ Hp).
  apply emits_emit.
Qed.

Lemma flood_ports ofp self msg dpid ports :
  (∀ port, port ∈ ports →
     (dpid, port) ∉ keys (access_table (awareness self)) →
     is_Some (datapaths self !! dpid) ∧ port ≠ 0) →
  ∃ out,
    emits (for_each ports (flood_port ofp self msg dpid)) (Ok tt) out ∧
    Forall2 (floods_to ofp (datapaths self) (msg_data msg)) out
      (filter (λ ap, ap ∉ keys (access_table (awareness self)))
              ((λ port, (dpid, port)) <$> ports)).
Proof.
  induction ports as [|port ports IH]; intros Hok.
  - exists []. split; [apply emits_ret | constructor].
  - destruct IH as (out & Hrun & Hout).
    { intros q Hq. apply Hok. apply elem_of_cons. by right. }
    rewrite fmap_cons.
    destruct (decide ((dpid, port) ∈ keys (access_table (awareness self))))
      as [Hin|Hin].
    + exists out. split.
      * apply (emits_bind_ok _ _ tt [] _ out); [by apply flood_port_known | done].
      * rewrite filter_cons_False; [done|]. by intros ?.
    + destruct (Hok port) as ([d Hd] & Hp); [apply elem_of_cons; by left | done |].
      exists (Send d (directive ofp port (msg_data msg)) :: out). split.
      * apply (emits_bind_ok _ _ tt [_] _ out);
          [by apply flood_port_unknown | done].
      * rewrite filter_cons_True by done. constructor; [|done]. by exists d.
Qed.

Lemma assoc_keys {V : Type} (d : list (Z * V)) k :
  k ∈ keys d → is_Some (assoc d k).
Proof.
  unfold keys. induction d as [|[k' v] d IH]; simpl.
  - intros Hin. by apply elem_of_nil in Hin.
  - intros [<-|Hin]%elem_of_cons.
    + rewrite decide_True by done. by eexists.
    + case_decide; [by eexists | by apply IH].
Qed.

Lemma flood_switches ofp self msg ks :
  ks ⊆ keys (access_ports (awareness self)) →
  (∀ ap, ap ∈ filter (λ ap, ap ∉ keys (access_table (awareness self)))
                (flat_map (λ dpid, (λ port, (dpid, port))
                                     <$> ports_of (awareness self) dpid) ks) →
         is_Some (datapaths self !! ap.1) ∧ ap.2 ≠ 0) →
  ∃ out,
    emits (for_each ks (λ dpid,
             ports ← lift (dict_getitem (access_ports (awareness self)) dpid);
             for_each ports (flood_port ofp self msg dpid))) (Ok tt) out ∧
    Forall2 (floods_to ofp (datapaths self) (msg_data msg)) out
      (filter (λ ap, ap ∉ keys (access_table (awareness self)))
              (flat_map (λ dpid, (λ port, (dpid, port))
                                   <$> ports_of (awareness self) dpid) ks)).
Proof.
  induction ks as [|dpid ks IH]; intros Hks Hok.
  - exists []. split; [apply emits_ret | constructor].
  - simpl in Hok |- *. rewrite filter_app in Hok |- *.
    destruct IH as (out2 & Hrun2 & Hout2).
    { intros k Hk. apply Hks. apply elem_of_cons. by right. }
    { intros ap Hap. apply Hok. apply elem_of_app. by right. }
    destruct (assoc_keys (access_ports (awareness self)) dpid) as [ports Hports].
    { apply Hks. apply elem_of_cons. by left. }
    destruct (flood_ports ofp self msg dpid ports) as (out1 & Hrun1 & Hout1).
    { intros port Hport Hunknown.
      apply (Hok (dpid, port)). apply elem_of_app. left.
      apply list_elem_of_filter. split; [done|].
      unfold ports_of. rewrite Hports. simpl.
      apply list_elem_of_fmap. by exists port. }
    exists (out1 ++ out2). split.
    + apply (emits_bind_ok _ _ tt out1 _ out2); [|done].
      unfold dict_getitem. rewrite Hports. by apply emits_bind_lift.
    + unfold ports_of at 1. rewrite Hports. simpl. by apply Forall2_app.
Qed.

(** C7: when the Host Location Table has no entry for the destination address
    of an address-resolution packet, [arp_forwarding] floods: provided the
    switches of the access points without a host entry are registered, it
    writes one forward-only directive carrying the packet's payload for each
    access point that has no Host Location Table entry, out of that port on
    the handle of its switch, and writes no other message. *)
Theorem arp_forwarding_flood ofp self msg src_ip dst_ip :
  get_host_location (access_table (awareness self)) dst_ip = None →
  (∀ ap, ap ∈ unknown_access_points (awareness self) →
         is_Some (datapaths self !! ap.1) ∧ ap.2 ≠ 0) →
  ∃ out,
    (∀ t, arp_forwarding ofp self msg src_ip dst_ip t
            = (Ok tt, t ++ out ++ [Log (LogDebug "Flooding msg" [])])) ∧
    Forall2 (floods_to ofp (datapaths self) (msg_data msg)) out
            (unknown_access_points (awareness self)).
Proof.
  intros Hloc Hok.
  destruct (flood_switches ofp self msg (keys (access_ports (awareness self))))
    as (out & Hrun & Hout); [done | exact Hok |].
  exists out. split; [|exact Hout].
  unfold arp_forwarding. rewrite Hloc. unfold flood.
  apply (emits_bind_ok _ _ tt out _ [_]); [exact Hrun | apply emits_emit].
Qed.

(** ** Stepping through a handler *)

Lemma emits_eq {A : Type} (m : M A) r o o' :
  emits m r o → o = o' → emits m r o'.
Proof. by intros H <-. Qed.

Lemma list_getitem_Z {A : Type} (l : list A) (i : Z) x :
  0 ≤ i → l !! Z.to_nat i = Some x → list_getitem l i = Ok x.
Proof.
  intros Hi Hx. unfold list_getitem.
  destruct (i <? 0) eqn:Hneg; [lia|]. by rewrite Hneg, Hx.
Qed.

Lemma list_getitem_back {A : Type} (l : list A) (k : nat) x :
  (0 < k ≤ length l)%nat → l !! (length l - k)%nat = Some x →
  list_getitem l (- Z.of_nat k) = Ok x.
Proof.
  intros Hk Hx. unfold list_getitem.
  destruct (- Z.of_nat k <? 0) eqn:Hneg; [|lia].
  destruct (- Z.of_nat k + Z.of_nat (length l) <? 0) eqn:Hneg'; [lia|].
  replace (Z.to_nat (- Z.of_nat k + Z.of_nat (length l)))
    with (length l - k)%nat by lia.
  by rewrite Hx.
Qed.

(** A loop whose every round ends normally. *)
Lemma for_each_groups {A : Type} (R : trace → A → Prop) (l : list A)
    (body : A → M unit) :
  (∀ x, x ∈ l → ∃ g, emits (body x) (Ok tt) g ∧ R g x) →
  ∃ gs, emits (for_each l body) (Ok tt) (concat gs) ∧ Forall2 R gs l.
Proof.
  induction l as [|x l IH]; intros Hbody.
  - exists []. split; [apply emits_ret | constructor].
  - destruct (Hbody x) as (g & Hg & HR); [apply elem_of_cons; by left|].
    destruct IH as (gs & Hgs & HRs).
    { intros y Hy. apply Hbody. apply elem_of_cons. by right. }
    exists (g :: gs). split; [|by constructor].
    simpl. by apply (emits_bind_ok _ _ tt g _ (concat gs)).
Qed.

(** A loop whose rounds end normally or raise [e]. *)
Lemma for_each_ok_or {A : Type} (e : exn) (l : list A) (body : A → M unit) :
  (∀ x, x ∈ l → ok_or e (body x)) → ok_or e (for_each l body).
Proof.
  induction l as [|x l IH]; intros Hall.
  - exists (Ok tt), []. split; [apply emits_ret | left; by eexists].
  - destruct (Hall x) as (r & o & Hx & [[[] ->]| ->]); [apply elem_of_cons; by left | |].
    + destruct IH as (r' & o' & Hrest & Hr').
      { intros z Hz. apply Hall. apply elem_of_cons. by right. }
      exists r', (o ++ o'). split; [|done]. simpl. by apply (emits_bind_ok _ _ tt).
    + exists (Raise e), o. split; [|by right]. simpl. by apply emits_bind_raise.
Qed.

(** A loop in which a round raises [e], every round ending normally or
    raising [e]. *)
Lemma for_each_raises {A : Type} (e : exn) (l : list A) (body : A → M unit) :
  (∀ x, x ∈ l → ok_or e (body x)) →
  (∃ x, x ∈ l ∧ raises e (body x)) →
  raises e (for_each l body).
Proof.
  induction l as [|x l IH]; intros Hall (y & Hy & oy & Hraise).
  - by apply elem_of_nil in Hy.
  - destruct (Hall x) as (r & o & Hx & [[[] ->]| ->]); [apply elem_of_cons; by left | |].
    + destruct IH as (o' & Ho').
      { intros z Hz. apply Hall. apply elem_of_cons. by right. }
      { apply elem_of_cons in Hy as [->|Hy].
        - destruct (emits_inj _ _ _ _ _ Hx Hraise) as [? _]. discriminate.
        - exists y. split; [done|]. by exists oy. }
      exists (o ++ o'). simpl. by apply (emits_bind_ok _ _ tt).
    + exists o. simpl. by apply emits_bind_raise.
Qed.

(** What a loop that ends normally has appended contains what each of its
    rounds appends. *)
Lemma for_each_member {A : Type} (l : list A) (body : A → M unit) o x :
  (∀ y, emits_with (λ _, True) (body y)) →
  emits (for_each l body) (Ok tt) o → x ∈ l →
  ∃ g, emits (body x) (Ok tt) g ∧ ∀ e, e ∈ g → e ∈ o.
Proof.
  intros Hframed. revert o. induction l as [|y l IH]; intros o Hrun Hx.
  - by apply elem_of_nil in Hx.
  - destruct (Hframed y) as (r & g & Hy & _).
    destruct (emits_with_for_each (λ _, True) I (λ _ _ _ _, I) l body Hframed)
      as (r' & o' & Hrest & _).
    destruct r as [[]|e'].
    + pose proof (emits_bind_ok _ (λ _, for_each l body) tt g r' o' Hy Hrest)
        as Hboth.
      destruct (emits_inj _ _ _ _ _ Hrun Hboth) as [<- ->].
      apply elem_of_cons in Hx as [->|Hx].
      * exists g. split; [done|]. intros e He. apply elem_of_app. by left.
      * destruct (IH o' Hrest Hx) as (g' & Hg' & Hsub).
        exists g'. split; [done|]. intros e He. apply elem_of_app. right. auto.
    + pose proof (emits_bind_raise _ (λ _, for_each l body) e' g Hy) as Hboth.
      destruct (emits_inj _ _ _ _ _ Hrun Hboth) as [? _]. discriminate.
Qed.

Lemma elem_of_range (a b i : Z) : i ∈ range a b ↔ a ≤ i < b.
Proof. unfold range. rewrite elem_of_seqZ. lia. Qed.

Lemma NoDup_range (a b : Z) : NoDup (range a b).
Proof. apply NoDup_seqZ. Qed.

Lemma length_range (a b : Z) : length (range a b) = Z.to_nat (b - a).
Proof. apply length_seqZ. Qed.

(** ** Installation along a path *)

Lemma getitem_Some `{Countable K} {V : Type} (d : gmap K V) k v :
  d !! k = Some v → getitem d k = Ok v.
Proof. intros Hk. unfold getitem. by rewrite Hk. Qed.

Lemma getitem_None `{Countable K} {V : Type} (d : gmap K V) k :
  d !! k = None → getitem d k = Raise KeyError.
Proof. intros Hk. unfold getitem. by rewrite Hk. Qed.

Ltac run_step :=
  lazymatch goal with
  | |- emits (lift (Ok _) ≫= _) _ _ => apply emits_bind_lift
  | |- emits (lift (Raise _) ≫= _) _ _ => apply emits_bind_lift_raise
  | |- emits (get_port_pair_from_link _ _ _ ≫= _) _ _ =>
      eapply emits_bind_ok; [apply get_port_pair_from_link_emits|]
  | |- emits (send_flow_mod _ _ _ _ _ ≫= _) _ _ =>
      eapply emits_bind_ok; [apply send_flow_mod_emits|]
  | |- emits (logger_info _ _ ≫= _) _ _ =>
      eapply emits_bind_ok; [apply emits_emit|]
  | |- emits (logger_debug _ _ ≫= _) _ _ =>
      eapply emits_bind_ok; [apply emits_emit|]
  | |- emits (logger_info _ _) _ _ => apply emits_emit
  | |- emits (logger_debug _ _) _ _ => apply emits_emit
  | |- emits (send_packet_out _ _ _ _ _ _) _ _ => apply send_packet_out_emits
  | |- emits (mret _) _ _ => apply emits_ret
  end.

Section Installation.

Variable ofp : ofproto.
Variable dps : gmap Z datapath.
Variable ltp : gmap (Z * Z) (Z * Z).
Variable tbl : list ((Z * Z) * (string * string)).
Variable path : list Z.
Variables (eth : Z) (src dst : string).

(** *** One interior hop *)

Section Hop.

Variables (i a b c : Z).
Hypothesis Hi : 1 ≤ i.
Hypothesis Ha : path !! Z.to_nat (i - 1) = Some a.
Hypothesis Hb : path !! Z.to_nat i = Some b.
Hypothesis Hc : path !! Z.to_nat (i + 1) = Some c.

Lemma inter_link_present pab pbc d :
  ltp !! (a, b) = Some pab → ltp !! (b, c) = Some pbc → dps !! b = Some d →
  emits (inter_link ofp dps ltp path (eth, src, dst) (eth, dst, src) i) (Ok tt)
        [Send d (rule ofp eth pab.2 src dst pbc.1);
         Send d (rule ofp eth pbc.1 dst src pab.2);
         Log (LogDebug "inter_link flow install" [])].
Proof using Hi Ha Hb Hc.
  intros Hab Hbc Hd. unfold inter_link.
  rewrite (list_getitem_Z path (i - 1) a), (list_getitem_Z path i b),
    (list_getitem_Z path (i + 1) c) by (done || lia).
  eapply emits_eq.
  - repeat (run_step; cbv beta; rewrite ?Hab, ?Hbc, ?(getitem_Some dps b d Hd)).
  - by rewrite Hab, Hbc.
Qed.

Lemma inter_link_unregistered pab pbc :
  ltp !! (a, b) = Some pab → ltp !! (b, c) = Some pbc → dps !! b = None →
  emits (inter_link ofp dps ltp path (eth, src, dst) (eth, dst, src) i)
        (Raise KeyError) [].
Proof using Hi Ha Hb Hc.
  intros Hab Hbc Hd. unfold inter_link.
  rewrite (list_getitem_Z path (i - 1) a), (list_getitem_Z path i b),
    (list_getitem_Z path (i + 1) c) by (done || lia).
  eapply emits_eq.
  - repeat (run_step; cbv beta; rewrite ?Hab, ?Hbc, ?(getitem_None dps b Hd)).
  - by rewrite Hab, Hbc.
Qed.

Lemma inter_link_absent :
  ltp !! (a, b) = None ∨ ltp !! (b, c) = None →
  emits (inter_link ofp dps ltp path (eth, src, dst) (eth, dst, src) i) (Ok tt)
        (match ltp !! (a, b) with Some _ => [] | None => [not_in_links a b] end ++
         match ltp !! (b, c) with Some _ => [] | None => [not_in_links b c] end).
Proof using Hi Ha Hb Hc.
  intros Habs. unfold inter_link.
  rewrite (list_getitem_Z path (i - 1) a), (list_getitem_Z path i b),
    (list_getitem_Z path (i + 1) c) by (done || lia).
  eapply emits_eq.
  - do 6 (run_step; cbv beta).
    destruct (ltp !! (a, b)), (ltp !! (b, c)); try apply emits_ret.
    by destruct Habs.
  - by rewrite app_nil_r.
Qed.

End Hop.

(** *** The last and the first switch of a path of two or more switches *)

Section Edges.

Variables (s0 s1 sp sl : Z) (d0 : datapath).
Variables (inp bid : Z) (data : option payload).
Hypothesis Hn : (2 ≤ length path)%nat.
Hypothesis H0 : path !! 0%nat = Some s0.
Hypothesis H1 : path !! 1%nat = Some s1.
Hypothesis Hp : path !! (length path - 2)%nat = Some sp.
Hypothesis Hl : path !! (length path - 1)%nat = Some sl.
Hypothesis Hd0 : dps !! s0 = Some d0.

Local Abbreviation run :=
  (install_flow ofp dps ltp tbl (Some path) (eth, src, dst, inp) bid data).

Local Abbreviation inter :=
  (inter_links ofp dps ltp path (eth, src, dst) (eth, dst, src)).

Lemma install_flow_unfold :
  run = (inter;;
         port_pair ← get_port_pair_from_link ltp sp sl;
         match port_pair with
         | None => logger_info "Port is not found" []
         | Some port_pair =>
             dst_port ← lift (get_port dst tbl);
             match dst_port with
             | None => logger_info "Last port is not found." []
             | Some dst_port =>
                 last_dp ← lift (getitem dps sl);
                 send_flow_mod ofp last_dp (eth, src, dst) port_pair.2 dst_port;;
                 send_flow_mod ofp last_dp (eth, dst, src) dst_port port_pair.2;;
                 port_pair ← get_port_pair_from_link ltp s0 s1;
                 match port_pair with
                 | None => logger_info "Port not found in first hop." []
                 | Some port_pair =>
                     send_flow_mod ofp d0 (eth, src, dst) inp port_pair.1;;
                     send_flow_mod ofp d0 (eth, dst, src) port_pair.1 inp;;
                     send_packet_out ofp d0 bid inp port_pair.1 data
                 end
             end
         end).
Proof using Hn H0 H1 Hp Hl Hd0.
  pose proof (list_getitem_Z path 0 s0 (Z.le_refl 0) H0) as Hg0.
  pose proof (list_getitem_Z path 1 s1 ltac:(lia) H1) as Hg1.
  pose proof (list_getitem_back path 2 sp ltac:(lia) Hp) as Hg2.
  pose proof (list_getitem_back path 1 sl ltac:(lia) Hl) as Hg3.
  change (- Z.of_nat 2) with (-2) in Hg2. change (- Z.of_nat 1) with (-1) in Hg3.
  unfold install_flow. cbv beta iota zeta.
  rewrite decide_False by lia.
  destruct (decide (Z.of_nat (length path) > 1)) as [_|]; [|lia].
  rewrite Hg0, Hg1, Hg2, Hg3, bind_lift_ok. cbv beta.
  rewrite (getitem_Some dps s0 d0 Hd0), bind_lift_ok. reflexivity.
Qed.

Lemma install_flow_inter_raises e o :
  emits inter (Raise e) o → emits run (Raise e) o.
Proof using Hn H0 H1 Hp Hl Hd0.
  intros Hinter. rewrite install_flow_unfold. by apply emits_bind_raise.
Qed.

Lemma install_flow_last_link_absent o :
  emits inter (Ok tt) o → ltp !! (sp, sl) = None →
  emits run (Ok tt)
        (o ++ [not_in_links sp sl; Log (LogInfo "Port is not found" [])]).
Proof using Hn H0 H1 Hp Hl Hd0.
  intros Hinter Hlast. rewrite install_flow_unfold.
  apply (emits_bind_ok _ _ tt); [done|]. eapply emits_eq.
  - repeat (run_step; cbv beta; rewrite ?Hlast).
  - by rewrite Hlast.
Qed.

Lemma install_flow_last_port_unresolved o pl :
  emits inter (Ok tt) o → ltp !! (sp, sl) = Some pl →
  get_port dst tbl = Ok None →
  emits run (Ok tt) (o ++ [Log (LogInfo "Last port is not found." [])]).
Proof using Hn H0 H1 Hp Hl Hd0.
  intros Hinter Hlast Hport. rewrite install_flow_unfold, Hport.
  apply (emits_bind_ok _ _ tt); [done|]. eapply emits_eq.
  - repeat (run_step; cbv beta; rewrite ?Hlast).
  - by rewrite Hlast.
Qed.

Lemma install_flow_last_unregistered o pl q :
  emits inter (Ok tt) o → ltp !! (sp, sl) = Some pl →
  get_port dst tbl = Ok (Some q) → dps !! sl = None →
  emits run (Raise KeyError) o.
Proof using Hn H0 H1 Hp Hl Hd0.
  intros Hinter Hlast Hport Hdl.
  rewrite install_flow_unfold, Hport, (getitem_None dps sl Hdl).
  eapply emits_eq; [apply (emits_bind_ok _ _ tt); [done|]|].
  - repeat (run_step; cbv beta; rewrite ?Hlast).
  - rewrite Hlast. by rewrite app_nil_r.
Qed.

Lemma install_flow_first_link_absent o pl q dl :
  emits inter (Ok tt) o → ltp !! (sp, sl) = Some pl →
  get_port dst tbl = Ok (Some q) → dps !! sl = Some dl →
  ltp !! (s0, s1) = None →
  emits run (Ok tt)
        (o ++ [Send dl (rule ofp eth pl.2 src dst q);
               Send dl (rule ofp eth q dst src pl.2);
               not_in_links s0 s1;
               Log (LogInfo "Port not found in first hop." [])]).
Proof using Hn H0 H1 Hp Hl Hd0.
  intros Hinter Hlast Hport Hdl Hfirst.
  rewrite install_flow_unfold, Hport, (getitem_Some dps sl dl Hdl).
  apply (emits_bind_ok _ _ tt); [done|]. eapply emits_eq.
  - repeat (run_step; cbv beta; rewrite ?Hlast, ?Hfirst).
  - by rewrite Hlast, Hfirst.
Qed.

Lemma install_flow_complete o pl q dl pf :
  emits inter (Ok tt) o → ltp !! (sp, sl) = Some pl →
  get_port dst tbl = Ok (Some q) → dps !! sl = Some dl →
  ltp !! (s0, s1) = Some pf →
  emits run (Ok tt)
        (o ++ [Send dl (rule ofp eth pl.2 src dst q);
               Send dl (rule ofp eth q dst src pl.2);
               Send d0 (rule ofp eth inp src dst pf.1);
               Send d0 (rule ofp eth pf.1 dst src inp)]
           ++ match _build_packet_out ofp d0 bid inp pf.1 data with
              | Some po => [Send d0 (PacketOut po)]
              | None => []
              end).
Proof using Hn H0 H1 Hp Hl Hd0.
  intros Hinter Hlast Hport Hdl Hfirst.
  rewrite install_flow_unfold, Hport, (getitem_Some dps sl dl Hdl).
  apply (emits_bind_ok _ _ tt); [done|]. eapply emits_eq.
  - repeat (run_step; cbv beta; rewrite ?Hlast, ?Hfirst).
  - by rewrite Hlast, Hfirst.
Qed.

End Edges.


(** *** The interior hops of a complete path *)

Lemma inter_links_complete :
  (∀ k a b, path !! k = Some a → path !! S k = Some b → is_Some (ltp !! (a, b))) →
  (∀ s, s ∈ path → is_Some (dps !! s)) →
  ∃ gs,
    emits (inter_links ofp dps ltp path (eth, src, dst) (eth, dst, src))
          (Ok tt) (concat gs) ∧
    Forall2 (hop_rules ofp dps path eth src dst) gs
            (range 1 (Z.of_nat (length path) - 1)).
Proof.
  intros Hlinks Hreg. unfold inter_links. case_decide as Hlen.
  - apply for_each_groups. intros i [Hi1 Hi2]%elem_of_range.
    destruct (lookup_lt_is_Some_2 path (Z.to_nat (i - 1))) as [a Ha]; [lia|].
    destruct (lookup_lt_is_Some_2 path (Z.to_nat i)) as [b Hb]; [lia|].
    destruct (lookup_lt_is_Some_2 path (Z.to_nat (i + 1))) as [c Hc]; [lia|].
    destruct (Hlinks (Z.to_nat (i - 1)) a b) as [pab Hab];
      [done | by replace (S (Z.to_nat (i - 1))) with (Z.to_nat i) by lia |].
    destruct (Hlinks (Z.to_nat i) b c) as [pbc Hbc];
      [done | by replace (S (Z.to_nat i)) with (Z.to_nat (i + 1)) by lia |].
    destruct (Hreg b) as [d Hd]; [by eapply list_elem_of_lookup_2|].
    eexists. split.
    + by apply (inter_link_present i a b c Hi1 Ha Hb Hc pab pbc d).
    + by exists b, d, pab.2, pbc.1.
  - exists []. split; [apply emits_ret|].
    unfold range. rewrite seqZ_nil by lia. constructor.
Qed.

End Installation.

(** *** Counting the rules of a trace *)

Lemma rules_app o1 o2 : rules (o1 ++ o2) = rules o1 ++ rules o2.
Proof. apply omap_app. Qed.

Lemma rules_on_app s o1 o2 : rules_on s (o1 ++ o2) = rules_on s o1 ++ rules_on s o2.
Proof. unfold rules_on. by rewrite rules_app, filter_app. Qed.

Lemma packet_outs_app o1 o2 : packet_outs (o1 ++ o2) = packet_outs o1 ++ packet_outs o2.
Proof. apply omap_app. Qed.

Lemma rules_on_pair s d fm1 fm2 :
  length (rules_on s [Send d (FlowMod fm1); Send d (FlowMod fm2)])
    = if decide (dp_id d = s) then 2%nat else 0%nat.
Proof.
  unfold rules_on. simpl. rewrite !filter_cons, filter_nil. simpl.
  by case_decide.
Qed.

Section Counting.

Variable ofp : ofproto.
Variable dps : gmap Z datapath.
Variable path : list Z.
Variables (eth : Z) (src dst : string).

Lemma hop_rules_total gs ks :
  Forall2 (hop_rules ofp dps path eth src dst) gs ks →
  length (rules (concat gs)) = (2 * length ks)%nat ∧ packet_outs (concat gs) = [].
Proof.
  induction 1 as [|g k gs ks (b & d & p & q & Hb & Hd & ->) _ [IH1 IH2]];
    [done|].
  rewrite concat_cons, rules_app, packet_outs_app, length_app, IH1, IH2.
  split; [simpl; lia | done].
Qed.

Hypothesis Hnodup : NoDup path.
Hypothesis Hids : ∀ s d, s ∈ path → dps !! s = Some d → dp_id d = s.

Lemma hop_rules_switch gs ks j s :
  path !! j = Some s →
  Forall2 (hop_rules ofp dps path eth src dst) gs ks →
  NoDup ks → (∀ k, k ∈ ks → 0 ≤ k) →
  length (rules_on s (concat gs))
    = if decide (Z.of_nat j ∈ ks) then 2%nat else 0%nat.
Proof using Hnodup Hids.
  intros Hj Hgs. induction Hgs
    as [|g k gs ks (b & d & p & q & Hb & Hd & ->) _ IH]; intros Hks Hpos.
  - rewrite decide_False; [done|]. intros Hin. by apply elem_of_nil in Hin.
  - apply NoDup_cons in Hks as [Hk Hks].
    assert (Hk0 : 0 ≤ k) by (apply Hpos, elem_of_cons; by left).
    specialize (IH Hks (λ k' Hk', Hpos k' (list_elem_of_further _ _ _ Hk'))).
    rewrite concat_cons.
    change [Send d (rule ofp eth p src dst q); Send d (rule ofp eth q dst src p);
            Log (LogDebug "inter_link flow install" [])]
      with ([Send d (rule ofp eth p src dst q);
             Send d (rule ofp eth q dst src p)]
            ++ [Log (LogDebug "inter_link flow install" [])]).
    rewrite !rules_on_app, !length_app. unfold rule at 1 2.
    rewrite rules_on_pair, IH.
    rewrite (Hids b d (list_elem_of_lookup_2 _ _ _ Hb) Hd).
    change (length (rules_on s [Log (LogDebug "inter_link flow install" [])]))
      with 0%nat.
    destruct (decide (b = s)) as [->|Hbs].
    + assert (Z.to_nat k = j)
        by (eapply (NoDup_lookup path); [exact Hnodup | exact Hb | exact Hj]).
      assert (k = Z.of_nat j) as -> by lia.
      destruct (decide (Z.of_nat j ∈ ks)) as [|_]; [done|].
      destruct (decide (Z.of_nat j ∈ Z.of_nat j :: ks)) as [_|Hn]; [done|].
      exfalso. apply Hn. apply elem_of_cons. by left.
    + assert (Z.of_nat j ≠ k).
      { intros <-. rewrite Nat2Z.id in Hb. congruence. }
      destruct (decide (Z.of_nat j ∈ ks)) as [Hin|Hin];
        destruct (decide (Z.of_nat j ∈ k :: ks)) as [Hin'|Hin']; try done.
      * exfalso. apply Hin'. apply elem_of_cons. by right.
      * exfalso. by apply elem_of_cons in Hin' as [?|?].
Qed.

End Counting.


(** ** Complete installation over a long path *)

Lemma build_packet_out_Some ofp d bid p q data :
  bid ≠ OFP_NO_BUFFER ofp ∨ data ≠ None →
  is_Some (_build_packet_out ofp d bid p q data).
Proof.
  intros Hbuf. unfold _build_packet_out, dp_ofproto.
  destruct (decide (bid = OFP_NO_BUFFER ofp)) as [Hb|Hb]; [|by eexists].
  destruct data as [bytes|]; [by eexists|]. by destruct Hbuf.
Qed.

Lemma build_packet_out_None ofp d bid p q data :
  bid = OFP_NO_BUFFER ofp → data = None →
  _build_packet_out ofp d bid p q data = None.
Proof.
  intros -> ->. unfold _build_packet_out, dp_ofproto. by rewrite decide_True.
Qed.

(** C1 as amended: for a path of [n > 2] distinct switches, all of them
    registered under their own id, with every adjacency of the path present in
    the link-port mapping and the destination's access port resolved,
    [install_flow] ends normally having installed exactly [4 + 2 (n - 2)]
    forwarding rules, two on every switch of the path (first, last and each
    interior one).  It sends exactly one packet-out, on the first switch, when
    a buffer reference or a payload is given, and none when the buffer id is
    [OFP_NO_BUFFER] and there is no payload. *)
Theorem install_flow_long_path ofp dps ltp tbl path eth src dst inp bid data q :
  (2 < length path)%nat →
  NoDup path →
  (∀ k a b, path !! k = Some a → path !! S k = Some b → is_Some (ltp !! (a, b))) →
  get_port dst tbl = Ok (Some q) →
  (∀ s, s ∈ path → ∃ d, dps !! s = Some d ∧ dp_id d = s) →
  ∃ out first,
    (∀ t, install_flow ofp dps ltp tbl (Some path) (eth, src, dst, inp) bid data t
            = (Ok tt, t ++ out)) ∧
    length (rules out) = (4 + 2 * (length path - 2))%nat ∧
    (∀ s, s ∈ path → length (rules_on s out) = 2%nat) ∧
    path !! 0%nat = Some first ∧
    (bid ≠ OFP_NO_BUFFER ofp ∨ data ≠ None →
     ∃ d o, dps !! first = Some d ∧ packet_outs out = [(d, o)]) ∧
    (bid = OFP_NO_BUFFER ofp ∧ data = None → packet_outs out = []).
Proof.
  intros Hn Hnodup Hlinks Hport Hreg.
  destruct (lookup_lt_is_Some_2 path 0) as [s0 H0]; [lia|].
  destruct (lookup_lt_is_Some_2 path 1) as [s1 H1]; [lia|].
  destruct (lookup_lt_is_Some_2 path (length path - 2)) as [sp Hp]; [lia|].
  destruct (lookup_lt_is_Some_2 path (length path - 1)) as [sl Hl]; [lia|].
  destruct (Hreg s0) as (d0 & Hd0 & Hid0); [by eapply list_elem_of_lookup_2|].
  destruct (Hreg sl) as (dl & Hdl & Hidl); [by eapply list_elem_of_lookup_2|].
  destruct (Hlinks 0%nat s0 s1 H0 H1) as [pf Hfirst].
  destruct (Hlinks (length path - 2)%nat sp sl) as [pl Hlast];
    [done | by replace (S (length path - 2)) with (length path - 1)%nat by lia |].
  destruct (inter_links_complete ofp dps ltp path eth src dst Hlinks)
    as (gs & Hinter & Hgs).
  { intros s Hs. destruct (Hreg s Hs) as (d & Hd & _). by exists d. }
  pose proof (install_flow_complete ofp dps ltp tbl path eth src dst
                s0 s1 sp sl d0 inp bid data ltac:(lia) H0 H1 Hp Hl Hd0
                (concat gs) pl q dl pf Hinter Hlast Hport Hdl Hfirst) as Hrun.
  set (delivery := match _build_packet_out ofp d0 bid inp pf.1 data with
                   | Some o => [Send d0 (PacketOut o)]
                   | None => []
                   end) in Hrun.
  assert (Hdelivery : rules delivery = []) by (unfold delivery; by case_match).
  destruct (hop_rules_total ofp dps path eth src dst gs _ Hgs) as [Htotal Hnopo].
  rewrite length_range in Htotal.
  eexists _, s0. split; [exact Hrun|].
  split; [|split; [|split; [done|split]]].
  - rewrite !rules_app, !length_app, Htotal, Hdelivery. simpl. lia.
  - intros s [j Hj]%list_elem_of_lookup_1.
    pose proof (lookup_lt_Some _ _ _ Hj) as Hjlt.
    assert (Hin : Z.of_nat j ∈ range 1 (Z.of_nat (length path) - 1)
                  ↔ (1 ≤ j < length path - 1)%nat)
      by (rewrite elem_of_range; lia).
    assert (E0 : s0 = s ↔ j = 0%nat).
    { split; [|intros ->; congruence]. intros ->. symmetry.
      eapply (NoDup_lookup path); [exact Hnodup | exact H0 | exact Hj]. }
    assert (El : sl = s ↔ j = (length path - 1)%nat).
    { split; [|intros ->; congruence]. intros ->. symmetry.
      eapply (NoDup_lookup path); [exact Hnodup | exact Hl | exact Hj]. }
    change [Send dl (rule ofp eth pl.2 src dst q);
            Send dl (rule ofp eth q dst src pl.2);
            Send d0 (rule ofp eth inp src dst pf.1);
            Send d0 (rule ofp eth pf.1 dst src inp)]
      with ([Send dl (rule ofp eth pl.2 src dst q);
             Send dl (rule ofp eth q dst src pl.2)]
            ++ [Send d0 (rule ofp eth inp src dst pf.1);
                Send d0 (rule ofp eth pf.1 dst src inp)]).
    rewrite !rules_on_app, !length_app. unfold rule.
    rewrite !rules_on_pair, Hid0, Hidl.
    rewrite (hop_rules_switch ofp dps path eth src dst Hnodup
               (λ s' d' Hs' Hd', ltac:(destruct (Hreg s' Hs') as (? & ? & ?);
                                        congruence))
               gs _ j s Hj Hgs (NoDup_range _ _)).
    2:{ intros k Hk%elem_of_range. lia. }
    unfold rules_on at 1. rewrite Hdelivery, filter_nil.
    change (length (@nil (datapath * OFPFlowMod))) with 0%nat.
    destruct (decide (Z.of_nat j ∈ range 1 (Z.of_nat (length path) - 1)))
      as [Hr%Hin|Hr];
      [|assert (¬ (1 ≤ j < length path - 1)%nat) by (by intros ?%Hin)];
      clear Hin; repeat case_decide; lia.
  - intros Hbuf.
    destruct (build_packet_out_Some ofp d0 bid inp pf.1 data Hbuf) as [po Hpo].
    exists d0, po. split; [done|].
    rewrite !packet_outs_app, Hnopo. unfold delivery. by rewrite Hpo.
  - intros [Hbid Hdata].
    rewrite !packet_outs_app, Hnopo. unfold delivery.
    by rewrite (build_packet_out_None ofp d0 bid inp pf.1 data Hbid Hdata).
Qed.

(** ** Unregistered switches *)





Section Unregistered.

Variable ofp : ofproto.
Variable dps : gmap Z datapath.
Variable ltp : gmap (Z * Z) (Z * Z).
Variable tbl : list ((Z * Z) * (string * string)).
Variable path : list Z.
Variables (eth : Z) (src dst : string).
Variables (inp bid : Z) (data : option payload).

Hypothesis Hlinks :
  ∀ k a b, path !! k = Some a → path !! S k = Some b → is_Some (ltp !! (a, b)).

Lemma install_flow_first_unregistered s0 :
  path !! 0%nat = Some s0 → dps !! s0 = None →
  emits (install_flow ofp dps ltp tbl (Some path) (eth, src, dst, inp) bid data)
        (Raise KeyError) [].
Proof.
  intros H0 Hd0.
  pose proof (list_getitem_Z path 0 s0 (Z.le_refl 0) H0) as Hg0.
  pose proof (lookup_lt_Some _ _ _ H0) as Hlen.
  unfold install_flow. cbv beta iota zeta.
  rewrite decide_False by lia.
  rewrite Hg0, bind_lift_ok. cbv beta.
  rewrite (getitem_None dps s0 Hd0). apply emits_bind_lift_raise.
Qed.

Lemma inter_link_ok_or i :
  1 ≤ i < Z.of_nat (length path) - 1 →
  ok_or KeyError (inter_link ofp dps ltp path (eth, src, dst) (eth, dst, src) i).
Proof using Hlinks.
  intros [Hi1 Hi2].
  destruct (lookup_lt_is_Some_2 path (Z.to_nat (i - 1))) as [a Ha]; [lia|].
  destruct (lookup_lt_is_Some_2 path (Z.to_nat i)) as [b Hb]; [lia|].
  destruct (lookup_lt_is_Some_2 path (Z.to_nat (i + 1))) as [c Hc]; [lia|].
  destruct (Hlinks (Z.to_nat (i - 1)) a b) as [pab Hab];
    [done | by replace (S (Z.to_nat (i - 1))) with (Z.to_nat i) by lia |].
  destruct (Hlinks (Z.to_nat i) b c) as [pbc Hbc];
    [done | by replace (S (Z.to_nat i)) with (Z.to_nat (i + 1)) by lia |].
  destruct (dps !! b) as [d|] eqn:Hd.
  - eexists _, _. split; [|left; by eexists].
    by apply (inter_link_present ofp dps ltp path eth src dst i a b c
                Hi1 Ha Hb Hc pab pbc d).
  - eexists _, _. split; [|by right].
    by apply (inter_link_unregistered ofp dps ltp path eth src dst i a b c
                Hi1 Ha Hb Hc pab pbc).
Qed.

Lemma inter_link_raises i s :
  1 ≤ i < Z.of_nat (length path) - 1 →
  path !! Z.to_nat i = Some s → dps !! s = None →
  raises KeyError (inter_link ofp dps ltp path (eth, src, dst) (eth, dst, src) i).
Proof using Hlinks.
  intros [Hi1 Hi2] Hb Hd.
  destruct (lookup_lt_is_Some_2 path (Z.to_nat (i - 1))) as [a Ha]; [lia|].
  destruct (lookup_lt_is_Some_2 path (Z.to_nat (i + 1))) as [c Hc]; [lia|].
  destruct (Hlinks (Z.to_nat (i - 1)) a s) as [pab Hab];
    [done | by replace (S (Z.to_nat (i - 1))) with (Z.to_nat i) by lia |].
  destruct (Hlinks (Z.to_nat i) s c) as [pbc Hbc];
    [done | by replace (S (Z.to_nat i)) with (Z.to_nat (i + 1)) by lia |].
  eexists.
  by apply (inter_link_unregistered ofp dps ltp path eth src dst i a s c
              Hi1 Ha Hb Hc pab pbc).
Qed.

Lemma inter_links_ok_or :
  ok_or KeyError (inter_links ofp dps ltp path (eth, src, dst) (eth, dst, src)).
Proof using Hlinks.
  unfold inter_links. case_decide.
  - apply for_each_ok_or. intros i Hi%elem_of_range. by apply inter_link_ok_or.
  - exists (Ok tt), []. split; [apply emits_ret | left; by eexists].
Qed.

Lemma inter_links_raises (j : nat) s :
  (1 ≤ j < length path - 1)%nat → path !! j = Some s → dps !! s = None →
  raises KeyError (inter_links ofp dps ltp path (eth, src, dst) (eth, dst, src)).
Proof using Hlinks.
  intros Hj Hs Hd. unfold inter_links. rewrite decide_True by lia.
  apply for_each_raises.
  - intros i Hi%elem_of_range. by apply inter_link_ok_or.
  - exists (Z.of_nat j). split; [apply elem_of_range; lia|].
    apply (inter_link_raises _ s); [lia | by rewrite Nat2Z.id | done].
Qed.

Lemma install_flow_unregistered s q :
  s ∈ path → dps !! s = None → get_port dst tbl = Ok (Some q) →
  raises KeyError
    (install_flow ofp dps ltp tbl (Some path) (eth, src, dst, inp) bid data).
Proof using Hlinks.
  intros [j Hj]%list_elem_of_lookup_1 Hd Hport.
  pose proof (lookup_lt_Some _ _ _ Hj) as Hjlt.
  destruct (lookup_lt_is_Some_2 path 0) as [s0 H0]; [lia|].
  destruct (dps !! s0) as [d0|] eqn:Hd0;
    [|eexists; by eapply install_flow_first_unregistered].
  assert (j ≠ 0%nat) by (intros ->; congruence).
  destruct (lookup_lt_is_Some_2 path 1) as [s1 H1]; [lia|].
  destruct (lookup_lt_is_Some_2 path (length path - 2)) as [sp Hp]; [lia|].
  destruct (lookup_lt_is_Some_2 path (length path - 1)) as [sl Hl]; [lia|].
  destruct (decide (j = length path - 1)%nat) as [->|Hjl].
  - assert (sl = s) as -> by congruence.
    destruct (Hlinks (length path - 2)%nat sp s) as [pl Hlast];
      [done | by replace (S (length path - 2)) with (length path - 1)%nat by lia |].
    destruct inter_links_ok_or as (r & o & Hinter & [[[] ->]| ->]).
    + exists o.
      by apply (install_flow_last_unregistered ofp dps ltp tbl path eth src dst
                  s0 s1 sp s d0 inp bid data ltac:(lia) H0 H1 Hp Hl Hd0 o pl q).
    + exists o.
      by apply (install_flow_inter_raises ofp dps ltp tbl path eth src dst
                  s0 s1 sp s d0 inp bid data ltac:(lia) H0 H1 Hp Hl Hd0).
  - destruct (inter_links_raises j s) as [o Hinter]; [lia | done | done |].
    exists o.
    by apply (install_flow_inter_raises ofp dps ltp tbl path eth src dst
                s0 s1 sp sl d0 inp bid data ltac:(lia) H0 H1 Hp Hl Hd0).
Qed.

End Unregistered.

(** ** Missing adjacencies *)

Lemma emits_run {A : Type} (m : M A) :
  emits_with (λ _, True) m → emits m (m []).1 (m []).2.
Proof. intros (r & o & Hm & _). by rewrite (Hm []). Qed.

Lemma inter_link_framed ofp dps ltp path eth src dst i :
  emits_with (λ _, True)
    (inter_link ofp dps ltp path (eth, src, dst) (eth, dst, src) i).
Proof. by apply inter_link_emits_with. Qed.

Lemma inter_links_member ofp dps ltp path eth src dst o i a b c pab pbc d :
  emits (inter_links ofp dps ltp path (eth, src, dst) (eth, dst, src)) (Ok tt) o →
  1 ≤ i < Z.of_nat (length path) - 1 →
  path !! Z.to_nat (i - 1) = Some a → path !! Z.to_nat i = Some b →
  path !! Z.to_nat (i + 1) = Some c →
  ltp !! (a, b) = Some pab → ltp !! (b, c) = Some pbc → dps !! b = Some d →
  Send d (rule ofp eth pab.2 src dst pbc.1) ∈ o ∧
  Send d (rule ofp eth pbc.1 dst src pab.2) ∈ o.
Proof.
  intros Hinter [Hi1 Hi2] Ha Hb Hc Hab Hbc Hd.
  unfold inter_links in Hinter. rewrite decide_True in Hinter by lia.
  destruct (for_each_member _ _ o i
              (inter_link_framed ofp dps ltp path eth src dst) Hinter)
    as (g & Hg & Hsub); [apply elem_of_range; lia|].
  pose proof (inter_link_present ofp dps ltp path eth src dst i a b c
                Hi1 Ha Hb Hc pab pbc d Hab Hbc Hd) as Hhop.
  destruct (emits_inj _ _ _ _ _ Hg Hhop) as [_ ->].
  split; apply Hsub.
  - apply elem_of_cons. by left.
  - apply elem_of_cons. right. apply elem_of_cons. by left.
Qed.

Lemma inter_links_framed ofp dps ltp path eth src dst :
  emits_with (λ _, True)
    (inter_links ofp dps ltp path (eth, src, dst) (eth, dst, src)).
Proof. by apply inter_links_emits_with. Qed.

Lemma inter_links_ends_normally ofp dps ltp path eth src dst :
  (∀ i a b c pab pbc,
     1 ≤ i < Z.of_nat (length path) - 1 →
     path !! Z.to_nat (i - 1) = Some a → path !! Z.to_nat i = Some b →
     path !! Z.to_nat (i + 1) = Some c →
     ltp !! (a, b) = Some pab → ltp !! (b, c) = Some pbc →
     is_Some (dps !! b)) →
  ∃ o, emits (inter_links ofp dps ltp path (eth, src, dst) (eth, dst, src))
             (Ok tt) o.
Proof.
  intros Hreg. unfold inter_links. case_decide.
  - destruct (for_each_groups (λ _ _, True) (range 1 (Z.of_nat (length path) - 1))
                (inter_link ofp dps ltp path (eth, src, dst) (eth, dst, src)))
      as (gs & Hrun & _); [|by exists (concat gs)].
    intros i [Hi1 Hi2]%elem_of_range.
    destruct (lookup_lt_is_Some_2 path (Z.to_nat (i - 1))) as [a Ha]; [lia|].
    destruct (lookup_lt_is_Some_2 path (Z.to_nat i)) as [b Hb]; [lia|].
    destruct (lookup_lt_is_Some_2 path (Z.to_nat (i + 1))) as [c Hc]; [lia|].
    destruct (ltp !! (a, b)) as [pab|] eqn:Hab.
    + destruct (ltp !! (b, c)) as [pbc|] eqn:Hbc.
      * destruct (Hreg i a b c pab pbc) as [d Hd]; try done.
        eexists. split; [|done].
        by apply (inter_link_present ofp dps ltp path eth src dst i a b c
                    Hi1 Ha Hb Hc pab pbc d).
      * eexists. split; [|done].
        apply (inter_link_absent ofp dps ltp path eth src dst i a b c
                 Hi1 Ha Hb Hc). by right.
    + eexists. split; [|done].
      apply (inter_link_absent ofp dps ltp path eth src dst i a b c
               Hi1 Ha Hb Hc). by left.
  - exists []. apply emits_ret.
Qed.

(** C2 as amended: a missing adjacency stops the installation only at the last
    and at the first switch.  An interior hop that lacks its incoming or its
    outgoing adjacency installs nothing and returns normally, so the loop goes
    on: when every interior hop that has both adjacencies has a registered
    switch, the loop ends normally, and when it ends normally every such hop
    has its two rules in the output.  After the loop, on a path whose first
    switch is registered: if the adjacency into the last switch is missing,
    [install_flow] returns having added nothing but log records; if it is
    present, the destination port resolves and the last switch is registered,
    the two rules of the last switch follow, and then either the adjacency out
    of the first switch is missing and [install_flow] returns, without the
    rules of the first switch and without the packet-out, or it is present
    and the two rules of the first switch and the packet-out follow.  What
    was submitted before stays in the trace. *)
Theorem install_flow_missing_link ofp dps ltp tbl path eth src dst inp bid data :
  let hop := inter_link ofp dps ltp path (eth, src, dst) (eth, dst, src) in
  let inter := inter_links ofp dps ltp path (eth, src, dst) (eth, dst, src) in
  let run := install_flow ofp dps ltp tbl (Some path) (eth, src, dst, inp)
               bid data in
  (∀ i a b c,
     1 ≤ i → path !! Z.to_nat (i - 1) = Some a → path !! Z.to_nat i = Some b →
     path !! Z.to_nat (i + 1) = Some c →
     ltp !! (a, b) = None ∨ ltp !! (b, c) = None →
     ∃ logs, emits (hop i) (Ok tt) logs ∧ rules logs = [] ∧ packet_outs logs = []) ∧
  ((∀ i a b c pab pbc,
      1 ≤ i < Z.of_nat (length path) - 1 →
      path !! Z.to_nat (i - 1) = Some a → path !! Z.to_nat i = Some b →
      path !! Z.to_nat (i + 1) = Some c →
      ltp !! (a, b) = Some pab → ltp !! (b, c) = Some pbc →
      is_Some (dps !! b)) →
   ∃ o, emits inter (Ok tt) o) ∧
  (∀ o i a b c pab pbc d,
     emits inter (Ok tt) o →
     1 ≤ i < Z.of_nat (length path) - 1 →
     path !! Z.to_nat (i - 1) = Some a → path !! Z.to_nat i = Some b →
     path !! Z.to_nat (i + 1) = Some c →
     ltp !! (a, b) = Some pab → ltp !! (b, c) = Some pbc → dps !! b = Some d →
     Send d (rule ofp eth pab.2 src dst pbc.1) ∈ o ∧
     Send d (rule ofp eth pbc.1 dst src pab.2) ∈ o) ∧
  (∀ s0 s1 sp sl d0 o,
     (2 ≤ length path)%nat →
     path !! 0%nat = Some s0 → path !! 1%nat = Some s1 →
     path !! (length path - 2)%nat = Some sp →
     path !! (length path - 1)%nat = Some sl →
     dps !! s0 = Some d0 →
     emits inter (Ok tt) o →
     (ltp !! (sp, sl) = None →
      emits run (Ok tt)
            (o ++ [not_in_links sp sl; Log (LogInfo "Port is not found" [])])) ∧
     (∀ pl q dl,
        ltp !! (sp, sl) = Some pl → get_port dst tbl = Ok (Some q) →
        dps !! sl = Some dl →
        (ltp !! (s0, s1) = None →
         emits run (Ok tt)
               (o ++ [Send dl (rule ofp eth pl.2 src dst q);
                      Send dl (rule ofp eth q dst src pl.2);
                      not_in_links s0 s1;
                      Log (LogInfo "Port not found in first hop." [])])) ∧
        (∀ pf,
           ltp !! (s0, s1) = Some pf →
           emits run (Ok tt)
                 (o ++ [Send dl (rule ofp eth pl.2 src dst q);
                        Send dl (rule ofp eth q dst src pl.2);
                        Send d0 (rule ofp eth inp src dst pf.1);
                        Send d0 (rule ofp eth pf.1 dst src inp)]
                    ++ match _build_packet_out ofp d0 bid inp pf.1 data with
                       | Some po => [Send d0 (PacketOut po)]
                       | None => []
                       end)))).
Proof.
  intros hop inter run. split; [|split; [|split]].
  - intros i a b c Hi Ha Hb Hc Habs. eexists. split.
    + by apply (inter_link_absent ofp dps ltp path eth src dst i a b c Hi Ha Hb Hc).
    + by destruct (ltp !! (a, b)), (ltp !! (b, c)).
  - apply inter_links_ends_normally.
  - intros o i a b c pab pbc d. apply inter_links_member.
  - intros s0 s1 sp sl d0 o Hn H0 H1 Hp Hl Hd0 Hinter. split.
    + intros Hlast.
      by apply (install_flow_last_link_absent ofp dps ltp tbl path eth src dst
                  s0 s1 sp sl d0 inp bid data Hn H0 H1 Hp Hl Hd0).
    + intros pl q dl Hlast Hport Hdl. split.
      * intros Hfirst.
        by apply (install_flow_first_link_absent ofp dps ltp tbl path eth src dst
                    s0 s1 sp sl d0 inp bid data Hn H0 H1 Hp Hl Hd0).
      * intros pf Hfirst.
        by apply (install_flow_complete ofp dps ltp tbl path eth src dst
                    s0 s1 sp sl d0 inp bid data Hn H0 H1 Hp Hl Hd0).
Qed.

(** ** Registration events *)

Lemma registry_cons i ids : registry (i :: ids) = <[i := dp i]> (registry ids).
Proof. reflexivity. Qed.

Lemma registry_ids ids s h : registry ids !! s = Some h → dp_id h = s.
Proof.
  induction ids as [|i ids IH].
  { change (registry []) with (∅ : gmap Z datapath). by rewrite lookup_empty. }
  rewrite registry_cons. destruct (decide (i = s)) as [<-|Hne].
  - rewrite lookup_insert_eq. by intros [= <-].
  - by rewrite lookup_insert_ne.
Qed.

(** X2: a state-change event never fails and touches one key of the registry
    only: after [MAIN_DISPATCHER] the id of the event's datapath is
    registered, with the handle it already had if it was registered before;
    after [DEAD_DISPATCHER] it is not registered; every other id keeps what it
    had, and the topology data is untouched. *)
Theorem _state_change_handler_lookup self ev_datapath ev_state t :
  ∃ self' t',
    _state_change_handler self ev_datapath ev_state t = (Ok self', t') ∧
    awareness self' = awareness self ∧
    datapaths self' !! dp_id ev_datapath
      = match ev_state with
        | MAIN_DISPATCHER =>
            Some (default ev_datapath (datapaths self !! dp_id ev_datapath))
        | DEAD_DISPATCHER => None
        end ∧
    ∀ k, k ≠ dp_id ev_datapath → datapaths self' !! k = datapaths self !! k.
Proof.
  unfold _state_change_handler.
  destruct ev_state, (datapaths self !! dp_id ev_datapath) eqn:Hdp;
    eexists _, _; (split; [reflexivity|]); (split; [reflexivity|]); simpl.
  - by rewrite Hdp.
  - split; [by rewrite lookup_insert_eq|].
    intros k Hk. by rewrite lookup_insert_ne.
  - split; [by rewrite lookup_delete_eq|].
    intros k Hk. by rewrite lookup_delete_ne.
  - by rewrite Hdp.
Qed.

(** X3: for a switch that is not registered, connecting and then
    disconnecting gives back the registry as it was, with one debug record
    for each event; and a second connect event of a registered switch changes
    nothing and logs nothing. *)
Theorem _state_change_handler_round_trip self ev_datapath t :
  datapaths self !! dp_id ev_datapath = None →
  ∃ self1 self2,
    _state_change_handler self ev_datapath MAIN_DISPATCHER t
      = (Ok self1, t ++ [Log (LogDebug "register datapath: %016x"
                                       [ArgInt (dp_id ev_datapath)])]) ∧
    (∀ t1, _state_change_handler self1 ev_datapath MAIN_DISPATCHER t1
             = (Ok self1, t1)) ∧
    (∀ t1, _state_change_handler self1 ev_datapath DEAD_DISPATCHER t1
             = (Ok self2, t1 ++ [Log (LogDebug "unregister datapath: %016x"
                                               [ArgInt (dp_id ev_datapath)])])) ∧
    datapaths self2 = datapaths self ∧ awareness self2 = awareness self.
Proof.
  intros Hdp.
  exists {| awareness := awareness self;
            datapaths := <[dp_id ev_datapath := ev_datapath]> (datapaths self) |},
         {| awareness := awareness self;
            datapaths := delete (dp_id ev_datapath)
                           (<[dp_id ev_datapath := ev_datapath]> (datapaths self)) |}.
  unfold _state_change_handler. rewrite Hdp. cbn [datapaths awareness].
  rewrite lookup_insert_eq.
  split; [reflexivity|]. split; [reflexivity|]. split; [reflexivity|].
  split; [by apply delete_insert_id | reflexivity].
Qed.

(** ** Short paths *)

Lemma inter_links_short ofp dps ltp path fi bi :
  (length path ≤ 2)%nat → inter_links ofp dps ltp path fi bi = mret tt.
Proof. intros Hlen. unfold inter_links. by rewrite decide_False by lia. Qed.

Lemma install_flow_single_unfold ofp dps ltp tbl s d eth src dst inp bid data :
  dps !! s = Some d →
  install_flow ofp dps ltp tbl (Some [s]) (eth, src, dst, inp) bid data
  = (out_port ← lift (get_port dst tbl);
     match out_port with
     | None => logger_info "Out_port is None in same dp" []
     | Some out_port =>
         send_flow_mod ofp d (eth, src, dst) inp out_port;;
         send_flow_mod ofp d (eth, dst, src) out_port inp;;
         send_packet_out ofp d bid inp out_port data
     end).
Proof.
  intros Hd. unfold install_flow. cbv beta iota zeta.
  rewrite inter_links_short by (simpl; lia).
  change (list_getitem [s] 0) with (Ok s).
  rewrite bind_lift_ok. cbv beta.
  rewrite (getitem_Some dps s d Hd), bind_lift_ok. reflexivity.
Qed.

Lemma install_flow_single_resolved ofp dps ltp tbl s d eth src dst inp bid data q :
  dps !! s = Some d → get_port dst tbl = Ok (Some q) →
  emits (install_flow ofp dps ltp tbl (Some [s]) (eth, src, dst, inp) bid data)
        (Ok tt)
        ([Send d (rule ofp eth inp src dst q); Send d (rule ofp eth q dst src inp)]
         ++ match _build_packet_out ofp d bid inp q data with
            | Some o => [Send d (PacketOut o)]
            | None => []
            end).
Proof.
  intros Hd Hport. rewrite (install_flow_single_unfold _ _ _ _ _ d) by done.
  rewrite Hport. apply emits_bind_lift.
  apply (rule_pair_emits ofp d eth src dst inp q). apply send_packet_out_emits.
Qed.

(** X4: on a path of one switch, registered with handle [d], [install_flow]
    never looks at the link-port mapping.  If the access port [q] of the
    destination resolves, it installs the forward rule (ingress port to [q])
    and the reverse rule on [d] and then sends the packet out of [q]; if the
    port does not resolve, it logs and installs nothing. *)
Theorem install_flow_same_switch ofp dps ltp tbl s d eth src dst inp bid data :
  dps !! s = Some d →
  (∀ q, get_port dst tbl = Ok (Some q) →
     emits (install_flow ofp dps ltp tbl (Some [s]) (eth, src, dst, inp) bid data)
           (Ok tt)
           ([Send d (rule ofp eth inp src dst q);
             Send d (rule ofp eth q dst src inp)]
            ++ match _build_packet_out ofp d bid inp q data with
               | Some o => [Send d (PacketOut o)]
               | None => []
               end)) ∧
  (get_port dst tbl = Ok None →
     emits (install_flow ofp dps ltp tbl (Some [s]) (eth, src, dst, inp) bid data)
           (Ok tt) [Log (LogInfo "Out_port is None in same dp" [])]).
Proof.
  intros Hd. split.
  - intros q Hport. by apply install_flow_single_resolved.
  - intros Hport. rewrite (install_flow_single_unfold _ _ _ _ _ d) by done.
    rewrite Hport. apply emits_bind_lift. apply emits_emit.
Qed.

(** X5: on a path of two registered switches whose adjacency is in the
    link-port mapping as [(p0, p1)], with the access port [q] of the
    destination resolved, [install_flow] installs four rules, first the pair
    of the last switch (between [p1] and [q]), then the pair of the first
    switch (between the ingress port and [p0]), and then sends the packet out
    of [p0] on the first switch.  Only the entry of the forward adjacency is
    read. *)
Theorem install_flow_two_switches ofp dps ltp tbl s0 s1 d0 d1 pp q
    eth src dst inp bid data :
  dps !! s0 = Some d0 → dps !! s1 = Some d1 →
  ltp !! (s0, s1) = Some pp → get_port dst tbl = Ok (Some q) →
  emits (install_flow ofp dps ltp tbl (Some [s0; s1]) (eth, src, dst, inp) bid data)
        (Ok tt)
        ([Send d1 (rule ofp eth pp.2 src dst q);
          Send d1 (rule ofp eth q dst src pp.2);
          Send d0 (rule ofp eth inp src dst pp.1);
          Send d0 (rule ofp eth pp.1 dst src inp)]
         ++ match _build_packet_out ofp d0 bid inp pp.1 data with
            | Some o => [Send d0 (PacketOut o)]
            | None => []
            end).
Proof.
  intros Hd0 Hd1 Hlink Hport.
  apply (install_flow_complete ofp dps ltp tbl [s0; s1] eth src dst
           s0 s1 s0 s1 d0 inp bid data ltac:(simpl; lia) eq_refl eq_refl
           eq_refl eq_refl Hd0 [] pp q d1 pp); try done.
  rewrite inter_links_short by (simpl; lia). apply emits_ret.
Qed.

(** X6: on a path of two or more switches, when the adjacency into the last
    switch is present but no host entry resolves the destination's access
    port, [install_flow] returns right after the interior hops: it adds one
    log record, installs nothing on the last or the first switch, sends no
    packet-out, and does not look up the handle of the last switch. *)
Theorem install_flow_unresolved_port ofp dps ltp tbl path eth src dst inp bid data
    s0 sp sl d0 pl o :
  (2 ≤ length path)%nat →
  path !! 0%nat = Some s0 → dps !! s0 = Some d0 →
  path !! (length path - 2)%nat = Some sp →
  path !! (length path - 1)%nat = Some sl →
  ltp !! (sp, sl) = Some pl →
  get_port dst tbl = Ok None →
  emits (inter_links ofp dps ltp path (eth, src, dst) (eth, dst, src)) (Ok tt) o →
  emits (install_flow ofp dps ltp tbl (Some path) (eth, src, dst, inp) bid data)
        (Ok tt) (o ++ [Log (LogInfo "Last port is not found." [])]).
Proof.
  intros Hn H0 Hd0 Hp Hl Hlast Hport Hinter.
  destruct (lookup_lt_is_Some_2 path 1) as [s1 H1]; [lia|].
  by apply (install_flow_last_port_unresolved ofp dps ltp tbl path eth src dst
              s0 s1 sp sl d0 inp bid data Hn H0 H1 Hp Hl Hd0 o pl).
Qed.

(** X7: [send_packet_out] writes nothing exactly when the buffer id is
    [OFP_NO_BUFFER] and there is no payload.  Otherwise it writes one
    packet-out, which carries the payload when the buffer id is
    [OFP_NO_BUFFER] and no payload when a buffer is named, and which has the
    output action unless the output port is 0. *)
Theorem send_packet_out_writes ofp d bid p q data :
  let actions := if decide (q = 0) then [] else [OFPActionOutput q] in
  let sent msg_data :=
    [Send d (PacketOut {| po_buffer_id := bid; po_data := msg_data;
                          po_in_port := p; po_actions := actions |})] in
  emits (send_packet_out ofp d bid p q data) (Ok tt)
        (if decide (bid = OFP_NO_BUFFER ofp)
         then match data with
              | Some bytes => sent (Some bytes)
              | None => []
              end
         else sent None).
Proof.
  intros actions sent. eapply emits_eq; [apply send_packet_out_emits|].
  unfold _build_packet_out, dp_ofproto, sent, actions.
  destruct (decide (bid = OFP_NO_BUFFER ofp)); [destruct data|]; reflexivity.
Qed.

(** ** Port and path lookup *)

Lemma assoc_In `{EqDecision K} {V : Type} (d : list (K * V)) k v :
  assoc d k = Some v → (k, v) ∈ d.
Proof.
  induction d as [|[k' v'] d IH]; simpl; [done|]. case_decide as Hk.
  - intros [= <-]. subst k'. apply elem_of_cons. by left.
  - intros Hd. apply elem_of_cons. right. by apply IH.
Qed.

Lemma assoc_is_Some `{EqDecision K} {V : Type} (d : list (K * V)) k :
  k ∈ keys d → is_Some (assoc d k).
Proof.
  unfold keys. induction d as [|[k' v] d IH]; simpl.
  - intros Hin. by apply elem_of_nil in Hin.
  - intros [<-|Hin]%elem_of_cons.
    + rewrite decide_True by done. by eexists.
    + case_decide; [by eexists | by apply IH].
Qed.

Lemma assoc_NoDup `{EqDecision K} {V : Type} (d : list (K * V)) k v :
  NoDup (keys d) → (k, v) ∈ d → assoc d k = Some v.
Proof.
  unfold keys. induction d as [|[k' v'] d IH]; simpl.
  - intros _ Hin. by apply elem_of_nil in Hin.
  - intros [Hk' Hd]%NoDup_cons [Heq|Hin]%elem_of_cons.
    + injection Heq as <- <-. by rewrite decide_True.
    + rewrite decide_False; [by apply IH|].
      intros ->. apply Hk'. apply list_elem_of_fmap. by exists (k, v).
Qed.

Lemma get_port_loop_total dst_ip tbl ks :
  ks ⊆ keys tbl → ∃ o, get_port_loop dst_ip tbl ks = Ok o.
Proof.
  induction ks as [|key ks IH]; intros Hks; simpl; [by eexists|].
  destruct (assoc_is_Some tbl key) as [v Hv];
    [apply Hks, elem_of_cons; by left|].
  unfold dict_getitem. rewrite Hv. simpl. case_decide; [by eexists|].
  apply IH. intros k Hk. apply Hks. apply elem_of_cons. by right.
Qed.

Lemma get_port_total dst_ip tbl : ∃ o, get_port dst_ip tbl = Ok o.
Proof.
  unfold get_port. destruct tbl as [|e tbl]; [by eexists|].
  by apply get_port_loop_total.
Qed.

(** The loop of [get_port] over the keys of a suffix of the table. *)
Lemma get_port_loop_suffix dst_ip pre suf :
  NoDup (keys (pre ++ suf)) →
  get_port_loop dst_ip (pre ++ suf) (keys suf)
    = Ok (snd <$> get_host_location suf dst_ip).
Proof.
  revert pre. induction suf as [|[key [ip mac]] suf IH]; intros pre Hnodup;
    [done|].
  simpl. unfold dict_getitem.
  rewrite (assoc_NoDup (pre ++ (key, (ip, mac)) :: suf) key (ip, mac) Hnodup)
    by (apply elem_of_app; right; apply elem_of_cons; by left).
  simpl. destruct (decide (dst_ip = ip)) as [->|Hip].
  - by rewrite decide_True.
  - rewrite decide_False by done.
    specialize (IH (pre ++ [(key, (ip, mac))])).
    rewrite <- app_assoc in IH. by apply IH.
Qed.

(** With a table that holds each access point once, [get_port] is the port of
    the host location. *)
Lemma get_port_host_location dst_ip tbl :
  NoDup (keys tbl) →
  get_port dst_ip tbl = Ok (snd <$> get_host_location tbl dst_ip).
Proof.
  intros Hnodup. unfold get_port. destruct tbl as [|e tbl]; [done|].
  by apply (get_port_loop_suffix dst_ip []).
Qed.

(** X8: on a table that holds each access point once, [get_port] never raises;
    it returns [None] exactly when no entry carries the address, and a port
    it returns is the port of an entry that carries the address. *)
Theorem get_port_spec dst_ip tbl :
  NoDup (keys tbl) →
  ∃ o, get_port dst_ip tbl = Ok o ∧
       (o = None ↔ ∀ key mac, (key, (dst_ip, mac)) ∉ tbl) ∧
       (∀ p, o = Some p → ∃ sw mac, ((sw, p), (dst_ip, mac)) ∈ tbl).
Proof.
  intros Hnodup. eexists. split; [by apply get_port_host_location|].
  destruct (get_host_location tbl dst_ip) as [[sw p]|] eqn:Hloc; simpl.
  - apply get_host_location_Some in Hloc as [mac Hin]. split.
    + split; [done|]. intros Hno. by destruct (Hno (sw, p) mac).
    + intros p' [= <-]. by exists sw, mac.
  - split; [|done]. split; [|done]. intros _ key mac.
    by apply get_host_location_None.
Qed.

(** X9: [get_path] succeeds exactly when the table has an entry for the pair
    that lists at least one path, and then returns the first path listed; an
    entry that lists no path makes it raise [IndexError]. *)
Theorem get_path_spec self src dst :
  (∀ p, get_path self src dst = Ok p ↔
        ∃ row rest, shortest_paths (awareness self) !! src = Some row ∧
                    row !! dst = Some (p :: rest)) ∧
  (∀ row, shortest_paths (awareness self) !! src = Some row →
          row !! dst = Some [] → get_path self src dst = Raise IndexError).
Proof.
  unfold get_path. split.
  - intros p. destruct (shortest_paths (awareness self) !! src) as [row|].
    + destruct (row !! dst) as [[|p' rest]|] eqn:Hrow.
      * split; [done|]. intros (? & ? & [= <-] & ?). congruence.
      * split.
        -- intros [= ->]. by exists row, rest.
        -- intros (? & ? & [= <-] & Hp). rewrite Hrow in Hp. by injection Hp as -> _.
      * split; [done|]. intros (? & ? & [= <-] & ?). congruence.
    + split; [done|]. by intros (? & ? & ? & ?).
  - intros row -> ->. reflexivity.
Qed.

(** X10: the only exception [get_sw] raises is [KeyError], and it raises it
    exactly when the ingress switch has no entry in the access-port map. *)
Theorem get_sw_raises self dpid in_port src dst :
  (get_sw self dpid in_port src dst = Raise KeyError ↔
   assoc (access_ports (awareness self)) dpid = None) ∧
  ∀ e, get_sw self dpid in_port src dst = Raise e → e = KeyError.
Proof.
  rewrite get_sw_cases.
  destruct (assoc (access_ports (awareness self)) dpid) as [ports|].
  - case_decide; (split; [split; discriminate | discriminate]).
  - split; [done|]. by intros e [= <-].
Qed.

(** X11: a destination learned on the switch with id 0 is treated like an
    unlearned one: when the ingress switch is known and there is no
    attachment mismatch, [shortest_forwarding] returns without looking up a
    path and without writing anything. *)
Theorem shortest_forwarding_switch_zero ofp self msg eth src dst ports p t :
  assoc (access_ports (awareness self)) (dp_id (msg_datapath msg)) = Some ports →
  msg_in_port msg ∉ ports ∨
  get_host_location (access_table (awareness self)) src
    = Some (dp_id (msg_datapath msg), msg_in_port msg) →
  get_host_location (access_table (awareness self)) dst = Some (0, p) →
  shortest_forwarding ofp self msg eth src dst t = (Ok tt, t).
Proof.
  intros Hports Hok Hdst. unfold shortest_forwarding.
  rewrite get_sw_cases, Hports, Hdst.
  rewrite decide_False; [done|]. intros [Hin Hne]. by destruct Hok.
Qed.

(** ** From a data packet to the rules *)

Lemma shortest_forwarding_run ofp self msg eth src dst a b path r o :
  get_sw self (dp_id (msg_datapath msg)) (msg_in_port msg) src dst
    = Ok (Some (a, Some b)) →
  b ≠ 0 →
  get_path self a b = Ok path →
  emits (install_flow ofp (datapaths self) (link_to_port (awareness self))
           (access_table (awareness self)) (Some path)
           (eth, src, dst, msg_in_port msg) (msg_buffer_id msg)
           (Some (msg_data msg))) r o →
  emits (shortest_forwarding ofp self msg eth src dst) r
        (Log (LogInfo "[PATH]%s<-->%s: %s" [ArgStr src; ArgStr dst; ArgPath path])
           :: o).
Proof.
  intros Hsw Hb Hpath Hrun. unfold shortest_forwarding.
  rewrite Hsw, bind_lift_ok. rewrite decide_False by done.
  rewrite Hpath, bind_lift_ok.
  by apply (emits_bind_ok _ _ tt [_] r o); [apply emits_emit|].
Qed.

(** X12: a data packet between two hosts on the same switch.  With a host
    table that holds each access point once, the ingress switch [s] (not 0)
    registered with handle [d], no attachment mismatch, the destination
    recorded at port [q] of [s], and the path table listing [[s]] first for
    the pair [(s, s)], [shortest_forwarding] logs the path, installs the
    forward and the reverse rule between the ingress port and [q] on [d], and
    sends the packet out of [q]: by its buffer when it has one, with its
    payload otherwise. *)
Theorem shortest_forwarding_same_switch ofp self msg eth src dst ports q d row rest :
  let s := dp_id (msg_datapath msg) in
  let inp := msg_in_port msg in
  let tbl := access_table (awareness self) in
  NoDup (keys tbl) →
  assoc (access_ports (awareness self)) s = Some ports →
  inp ∉ ports ∨ get_host_location tbl src = Some (s, inp) →
  get_host_location tbl dst = Some (s, q) →
  s ≠ 0 →
  shortest_paths (awareness self) !! s = Some row →
  row !! s = Some ([s] :: rest) →
  datapaths self !! s = Some d →
  emits (shortest_forwarding ofp self msg eth src dst) (Ok tt)
        [Log (LogInfo "[PATH]%s<-->%s: %s" [ArgStr src; ArgStr dst; ArgPath [s]]);
         Send d (rule ofp eth inp src dst q);
         Send d (rule ofp eth q dst src inp);
         Send d (PacketOut
                   {| po_buffer_id := msg_buffer_id msg;
                      po_data := if decide (msg_buffer_id msg = OFP_NO_BUFFER ofp)
                                 then Some (msg_data msg) else None;
                      po_in_port := inp;
                      po_actions := if decide (q = 0) then []
                                    else [OFPActionOutput q] |})].
Proof.
  intros s inp tbl Hnodup Hports Hok Hdst Hs Hrow Hpaths Hd.
  apply (shortest_forwarding_run ofp self msg eth src dst s s [s]).
  - rewrite get_sw_cases. fold s. rewrite Hports. fold tbl. rewrite Hdst.
    rewrite decide_False; [done|]. intros [Hin Hne]. by destruct Hok.
  - done.
  - unfold get_path. by rewrite Hrow, Hpaths.
  - eapply emits_eq.
    + apply (install_flow_single_resolved ofp _ _ _ s d eth src dst inp _ _ q Hd).
      fold tbl. rewrite (get_port_host_location dst tbl Hnodup). by rewrite Hdst.
    + unfold _build_packet_out, dp_ofproto.
      by destruct (decide (msg_buffer_id msg = OFP_NO_BUFFER ofp)).
Qed.

(** ** What address-resolution handling writes *)

Lemma build_packet_out_no_buffer ofp d src_port port bytes :
  _build_packet_out ofp d (OFP_NO_BUFFER ofp) src_port port (Some bytes)
    = Some {| po_buffer_id := OFP_NO_BUFFER ofp; po_data := Some bytes;
              po_in_port := src_port;
              po_actions := if decide (port = 0) then []
                            else [OFPActionOutput port] |}.
Proof. unfold _build_packet_out, dp_ofproto. by rewrite decide_True. Qed.

Section Directives.

Variable ofp : ofproto.
Variable self : ShortestForwarding.
Variable msg : packet_in.

Local Abbreviation P := (Forall (is_directive ofp (msg_data msg))).

Lemma directives_app o1 o2 : P o1 → P o2 → P (o1 ++ o2).
Proof. intros. by apply Forall_app. Qed.

Lemma send_directive_emits_with d port :
  emits_with P
    (send_msg d (PacketOut <$> _build_packet_out ofp d
                                 (OFP_NO_BUFFER (dp_ofproto ofp (msg_datapath msg)))
                                 (OFPP_CONTROLLER (dp_ofproto ofp (msg_datapath msg)))
                                 port (Some (msg_data msg)))).
Proof.
  unfold dp_ofproto. rewrite build_packet_out_no_buffer.
  apply emits_with_emit. by repeat constructor.
Qed.

Lemma flood_port_emits_with dpid port :
  emits_with P (flood_port ofp self msg dpid port).
Proof.
  unfold flood_port. case_bool_decide.
  - by apply emits_with_ret.
  - apply emits_with_bind; [apply directives_app | by apply emits_with_lift |].
    intros d. apply send_directive_emits_with.
Qed.

Lemma flood_emits_with : emits_with P (flood ofp self msg).
Proof.
  unfold flood. apply emits_with_bind; [apply directives_app | |].
  - apply emits_with_for_each; [done | apply directives_app |]. intros dpid.
    apply emits_with_bind; [apply directives_app | by apply emits_with_lift |].
    intros ports. apply emits_with_for_each; [done | apply directives_app |].
    apply flood_port_emits_with.
  - intros _. apply emits_with_emit. by repeat constructor.
Qed.

Lemma arp_forwarding_emits_with src_ip dst_ip :
  emits_with P (arp_forwarding ofp self msg src_ip dst_ip).
Proof.
  unfold arp_forwarding.
  destruct (get_host_location _ dst_ip) as [[s p]|]; [|apply flood_emits_with].
  apply emits_with_bind; [apply directives_app | by apply emits_with_lift |].
  intros d. apply emits_with_bind; [apply directives_app | |].
  - apply send_directive_emits_with.
  - intros _. apply emits_with_emit. by repeat constructor.
Qed.

End Directives.

(** X13: whatever the tables and the registry, and also when it ends with an
    exception, [arp_forwarding] never installs a rule: all it writes are log
    records and packet-outs that carry the packet's payload from the
    controller port with no buffer reference. *)
Theorem arp_forwarding_only_directives ofp self msg src_ip dst_ip :
  ∃ r out,
    (∀ t, arp_forwarding ofp self msg src_ip dst_ip t = (r, t ++ out)) ∧
    Forall (is_directive ofp (msg_data msg)) out ∧
    rules out = [].
Proof.
  destruct (arp_forwarding_emits_with ofp self msg src_ip dst_ip)
    as (r & out & Hrun & Hout).
  exists r, out. split; [exact Hrun|]. split; [exact Hout|].
  clear Hrun. induction Hout as [|e out He _ IH]; [done|].
  destruct e as [d [fm|o]|rcd]; [done | exact IH | exact IH].
Qed.

(** X14: when every access point of the topology has a host entry, [flood]
    writes nothing but its debug record and never looks into the registry. *)
Theorem flood_nothing_unknown ofp self msg t :
  unknown_access_points (awareness self) = [] →
  flood ofp self msg t = (Ok tt, t ++ [Log (LogDebug "Flooding msg" [])]).
Proof.
  intros Hnone.
  destruct (flood_switches ofp self msg (keys (access_ports (awareness self))))
    as (out & Hrun & Hout); [done | |].
  - fold (access_points (awareness self)).
    fold (unknown_access_points (awareness self)). rewrite Hnone.
    intros ap Hap. by apply elem_of_nil in Hap.
  - fold (access_points (awareness self)) in Hout.
    fold (unknown_access_points (awareness self)) in Hout. rewrite Hnone in Hout.
    apply Forall2_nil_inv_r in Hout as ->.
    unfold flood. by apply (emits_bind_ok _ _ tt [] _ [_]); [|apply emits_emit].
Qed.

(** X15: a packet with no address-resolution header, and with no IPv4 header
    or no Ethernet header, is dropped: the handler ends normally having
    written no rule and no packet-out. *)
Theorem _packet_in_handler_drops ofp self msg pkt t :
  arp_pkt pkt = None →
  ip_pkt pkt = None ∨ ethernet_pkts pkt = [] →
  ∃ logs,
    _packet_in_handler ofp self msg pkt t = (Ok tt, t ++ logs) ∧
    rules logs = [] ∧ packet_outs logs = [].
Proof.
  intros Harp Hip. revert t.
  enough (∃ logs, emits (_packet_in_handler ofp self msg pkt) (Ok tt) logs ∧
                  rules logs = [] ∧ packet_outs logs = [])
    as (logs & Hrun & Hlogs); [intros t; by exists logs|].
  unfold _packet_in_handler. rewrite Harp.
  destruct (ip_pkt pkt) as [[src dst]|].
  - destruct Hip as [|Heth]; [done|]. rewrite Heth.
    exists [Log (LogDebug "IPV4 processing" [])]. split; [|done].
    apply (emits_bind_ok _ _ tt [] _ [_]); [apply emits_ret|].
    apply (emits_bind_ok _ _ tt [_] _ []); [apply emits_emit | apply emits_ret].
  - exists []. split; [|done].
    apply (emits_bind_ok _ _ tt [] _ []); apply emits_ret.
Qed.

(** ** Where an installation writes *)

Lemma emits_with_bind_lift (P : trace → Prop) {A B : Type} (r : result A)
    (k : A → M B) :
  P [] → (∀ a, r = Ok a → emits_with P (k a)) → emits_with P (lift r ≫= k).
Proof.
  intros Hnil Hk. destruct r as [a|e].
  - destruct (Hk a eq_refl) as (r & o & Hrun & Ho).
    exists r, o. split; [by apply emits_bind_lift | done].
  - exists (Raise e), []. split; [apply emits_bind_lift_raise | done].
Qed.

Lemma list_getitem_elem {A : Type} (l : list A) (i : Z) x :
  list_getitem l i = Ok x → x ∈ l.
Proof.
  unfold list_getitem. case_match; [done|].
  destruct (l !! _) eqn:Hx; [|done]. intros [= <-].
  by eapply list_elem_of_lookup_2.
Qed.

Lemma getitem_inv `{Countable K} {V : Type} (d : gmap K V) k v :
  getitem d k = Ok v → d !! k = Some v.
Proof. unfold getitem. destruct (d !! k); [by intros [= <-] | done]. Qed.

Section OnPath.

Variable ofp : ofproto.
Variable dps : gmap Z datapath.
Variable ltp : gmap (Z * Z) (Z * Z).
Variable path : list Z.
Variables (eth : Z) (src dst : string).

Local Abbreviation P := (Forall (on_path ofp dps path eth src dst)).

Lemma on_path_app o1 o2 : P o1 → P o2 → P (o1 ++ o2).
Proof. intros. by apply Forall_app. Qed.

Lemma on_path_log r : P [Log r].
Proof. by repeat constructor. Qed.

Lemma pair_on_path {A : Type} d s p q (rest : M A) :
  s ∈ path → dps !! s = Some d → emits_with P rest →
  emits_with P (send_flow_mod ofp d (eth, src, dst) p q;;
                send_flow_mod ofp d (eth, dst, src) q p;; rest).
Proof.
  intros Hs Hd (r & o & Hrest & Ho). eexists _, _. split.
  - by apply rule_pair_emits.
  - apply on_path_app; [|done]. constructor; [|constructor; [|constructor]].
    + split; [by exists s|]. exists p, q. by left.
    + split; [by exists s|]. exists q, p. by right.
Qed.

Lemma packet_out_on_path d s bid p q data :
  s ∈ path → dps !! s = Some d →
  emits_with P (send_packet_out ofp d bid p q data).
Proof.
  intros Hs Hd. eexists _, _. split; [apply send_packet_out_emits|].
  case_match; [|done]. repeat constructor. by exists s.
Qed.

Ltac path_step :=
  first
    [ apply emits_with_bind_lift; [done | intros ? ?]
    | lazymatch goal with
      | |- emits_with _ (send_flow_mod _ ?d _ _ _ ≫= _) =>
          match goal with
          | Hd : getitem dps ?s = Ok d, Hs : list_getitem path _ = Ok ?s |- _ =>
              apply (pair_on_path d s _ _ _ (list_getitem_elem _ _ _ Hs)
                       (getitem_inv _ _ _ Hd))
          end
      | |- emits_with _ (send_packet_out _ ?d _ _ _ _) =>
          match goal with
          | Hd : getitem dps ?s = Ok d, Hs : list_getitem path _ = Ok ?s |- _ =>
              apply (packet_out_on_path d s _ _ _ _ (list_getitem_elem _ _ _ Hs)
                       (getitem_inv _ _ _ Hd))
          end
      end
    | apply emits_with_emit; apply on_path_log
    | apply emits_with_ret; done
    | apply emits_with_bind;
        [ apply on_path_app
        | apply get_port_pair_from_link_emits_with; [done | apply on_path_log]
        | intros ? ]
    | case_match
    | case_decide ].

Lemma inter_link_on_path i :
  emits_with P (inter_link ofp dps ltp path (eth, src, dst) (eth, dst, src) i).
Proof. unfold inter_link. repeat path_step. Qed.

Lemma inter_links_on_path :
  emits_with P (inter_links ofp dps ltp path (eth, src, dst) (eth, dst, src)).
Proof.
  unfold inter_links. case_decide; [|by apply emits_with_ret].
  apply emits_with_for_each; [done | apply on_path_app |].
  apply inter_link_on_path.
Qed.

Lemma install_flow_on_path tbl inp bid data :
  emits_with P
    (install_flow ofp dps ltp tbl (Some path) (eth, src, dst, inp) bid data).
Proof.
  unfold install_flow. cbv beta iota zeta. case_decide; [path_step|].
  do 2 path_step.
  apply emits_with_bind; [apply on_path_app | apply inter_links_on_path | intros _].
  repeat path_step.
Qed.

End OnPath.

(** X16: whatever the tables, and also when it stops early or raises,
    [install_flow] writes only to handles that the registry holds for
    switches of the path, and the rules it installs match the addresses of
    the flow, in the observed direction or in the reverse one. *)
Theorem install_flow_stays_on_path ofp dps ltp tbl path eth src dst inp bid data :
  ∃ r out,
    (∀ t, install_flow ofp dps ltp tbl (Some path) (eth, src, dst, inp) bid data t
            = (r, t ++ out)) ∧
    Forall (on_path ofp dps path eth src dst) out.
Proof.
  destruct (install_flow_on_path ofp dps ltp path eth src dst tbl inp bid data)
    as (r & out & Hrun & Hout).
  exists r, out. split; [exact Hrun | exact Hout].
Qed.

(** ** How an installation can fail *)


Section Outcome.

Variable ofp : ofproto.
Variable dps : gmap Z datapath.
Variable ltp : gmap (Z * Z) (Z * Z).
Variable path : list Z.
Variables (eth : Z) (src dst : string).

Local Abbreviation outcome m :=
  (∃ r o, emits m r o ∧
          (r = Ok tt ∨ r = Raise KeyError ∧ ∃ s, s ∈ path ∧ dps !! s = None)).



End Outcome.

(** ** Order of handling in the packet-in handler *)

(** X18: for a packet that carries both an address-resolution header and an
    IPv4 header (with an Ethernet header), the handler does the
    address-resolution handling first and the data handling second.  If the
    first raises, the second never runs and the handler ends with that
    exception; otherwise the handler ends as the data handling does, after
    the output of both. *)
Theorem _packet_in_handler_order ofp self msg pkt a_src a_dst src dst eth rest :
  arp_pkt pkt = Some (a_src, a_dst) →
  ip_pkt pkt = Some (src, dst) →
  ethernet_pkts pkt = eth :: rest →
  (∀ e o, emits (arp_forwarding ofp self msg a_src a_dst) (Raise e) o →
          emits (_packet_in_handler ofp self msg pkt) (Raise e)
                (Log (LogDebug "ARP processing" []) :: o)) ∧
  (∀ o1 r o2,
     emits (arp_forwarding ofp self msg a_src a_dst) (Ok tt) o1 →
     emits (shortest_forwarding ofp self msg eth src dst) r o2 →
     emits (_packet_in_handler ofp self msg pkt) r
           (Log (LogDebug "ARP processing" []) :: o1
              ++ Log (LogDebug "IPV4 processing" []) :: o2)).
Proof.
  intros Harp Hip Heth. unfold _packet_in_handler. rewrite Harp, Hip, Heth. split.
  - intros e o Hraise. apply emits_bind_raise.
    apply (emits_bind_ok _ _ tt [_] _ o); [apply emits_emit | done].
  - intros o1 r o2 Hfirst Hsecond.
    apply (emits_bind_ok _ _ tt (_ :: o1) r (_ :: o2)).
    + apply (emits_bind_ok _ _ tt [_] _ o1); [apply emits_emit | done].
    + apply (emits_bind_ok _ _ tt [_] r o2); [apply emits_emit | done].
Qed.

(** ** Handles missing from the registry *)











(** * Concrete runs *)

(** C4, as stated, fails: no path is known between switches 1 and 3, and
    [get_path] raises [AttributeError] rather than reporting a missing path;
    the exception leaves [shortest_forwarding] and the packet-in handler. *)
Lemma get_path_no_entry_unhandled :
  shortest_paths (awareness net3_no_paths) !! 1 ≫= (.!! 3) = None ∧
  get_sw net3_no_paths 1 5 h1 h3 = Ok (Some (1, Some 3)) ∧
  get_path net3_no_paths 1 3 = Raise AttributeError ∧
  shortest_forwarding ofproto_v1_3 net3_no_paths msg15 0x0800 h1 h3 []
    = (Raise AttributeError, []) ∧
  _packet_in_handler ofproto_v1_3 net3_no_paths msg15
      {| arp_pkt := None; ip_pkt := Some (h1, h3); ethernet_pkts := [0x0800] |} []
    = (Raise AttributeError, [Log (LogDebug "IPV4 processing" [])]).
Proof. repeat split; vm_compute; reflexivity. Qed.

Lemma get_path_no_entry_witness :
  shortest_paths (awareness net3_row_only) !! 1 ≫= (.!! 3) = None ∧
  get_path net3_row_only 1 3 = Raise TypeError ∧
  shortest_forwarding ofproto_v1_3 net3_row_only msg15 0x0800 h1 h3 []
    = (Raise TypeError, []).
Proof.
  assert (Hno : shortest_paths (awareness net3_row_only) !! 1 ≫= (.!! 3) = None)
    by (vm_compute; reflexivity).
  destruct (get_path_no_entry ofproto_v1_3 net3_row_only 1 3 Hno) as [Hpath Hfwd].
  split; [exact Hno|]. split; [exact Hpath|].
  apply Hfwd; [vm_compute; reflexivity | discriminate].
Defined.

Lemma get_sw_unresolvable_witness :
  get_sw net3_wide 3 5 h1 h3 = Ok None ∧
  shortest_forwarding ofproto_v1_3 net3_wide msg35 0x0800 h1 h3 [] = (Ok tt, []).
Proof.
  destruct (get_sw_unresolvable ofproto_v1_3 net3_wide 3 5 h1 h3)
    as (Hnone & _ & Hfwd).
  assert (Hm : ∃ ports, assoc (access_ports (awareness net3_wide)) 3 = Some ports ∧
                        5 ∈ ports ∧
                        get_host_location (access_table (awareness net3_wide)) h1
                          ≠ Some (3, 5)).
  { exists [5; 7]. split; [reflexivity|]. split; [|discriminate].
    apply elem_of_cons. by left. }
  split; [by apply Hnone|].
  destruct (Hfwd msg35 0x0800 [] eq_refl eq_refl) as [Hskip _].
  exact (Hskip Hm).
Defined.

Lemma arp_forwarding_known_witness :
  get_host_location (access_table (awareness net7_h2)) h2 = Some (7, 3) ∧
  datapaths net7_h2 !! 7 = Some (dp 7) ∧
  arp_forwarding ofproto_v1_3 net7_h2 msg71 h1 h2 []
    = (Ok tt, [Send (dp 7) (directive ofproto_v1_3 3 (msg_data msg71));
               Log (LogDebug "Reply ARP to knew host" [])]).
Proof.
  assert (Hloc : get_host_location (access_table (awareness net7_h2)) h2
                   = Some (7, 3)) by reflexivity.
  assert (Hd : datapaths net7_h2 !! 7 = Some (dp 7)) by (vm_compute; reflexivity).
  split; [exact Hloc|]. split; [exact Hd|].
  apply (arp_forwarding_known ofproto_v1_3 net7_h2 msg71 h1 h2 7 3 (dp 7) []
           Hloc Hd).
  discriminate.
Defined.

(** The flooding example of the specification: with access ports 1, 2 and 3 on
    switch 7 and a host known at port 1 only, a query for an unknown address
    yields exactly two directives, to ports 2 and 3 of switch 7. *)
Lemma arp_forwarding_flood_witness :
  get_host_location (access_table (awareness net7)) h2 = None ∧
  unknown_access_points (awareness net7) = [(7, 2); (7, 3)] ∧
  ∀ t, arp_forwarding ofproto_v1_3 net7 msg71 h1 h2 t
         = (Ok tt, t ++ [Send (dp 7) (directive ofproto_v1_3 2 (msg_data msg71));
                         Send (dp 7) (directive ofproto_v1_3 3 (msg_data msg71));
                         Log (LogDebug "Flooding msg" [])]).
Proof.
  assert (Hloc : get_host_location (access_table (awareness net7)) h2 = None)
    by reflexivity.
  assert (Hu : unknown_access_points (awareness net7) = [(7, 2); (7, 3)])
    by (vm_compute; reflexivity).
  assert (Hreg : ∀ ap, ap ∈ unknown_access_points (awareness net7) →
                       is_Some (datapaths net7 !! ap.1) ∧ ap.2 ≠ 0).
  { rewrite Hu. intros ap Hap.
    apply elem_of_cons in Hap as [->|Hap];
      [|apply list_elem_of_singleton in Hap as ->];
      (split; [by exists (dp 7) | discriminate]). }
  destruct (arp_forwarding_flood ofproto_v1_3 net7 msg71 h1 h2 Hloc Hreg)
    as (out & Hrun & Hout).
  split; [exact Hloc|]. split; [exact Hu|].
  rewrite Hu in Hout.
  apply Forall2_cons_inv_r in Hout as (e1 & out1 & (d1 & Hd1 & ->) & Hout & ->).
  apply Forall2_cons_inv_r in Hout as (e2 & out2 & (d2 & Hd2 & ->) & Hout & ->).
  apply Forall2_nil_inv_r in Hout as ->.
  assert (Hd : datapaths net7 !! 7 = Some (dp 7)) by (vm_compute; reflexivity).
  change (datapaths net7 !! 7 = Some d1) in Hd1.
  change (datapaths net7 !! 7 = Some d2) in Hd2.
  rewrite Hd in Hd1, Hd2.
  injection Hd1 as <-. injection Hd2 as <-. exact Hrun.
Defined.

(** C1, as stated, fails on the count: over the path of three switches, with
    every adjacency present, the access port of the destination resolved and
    every switch registered, six rules are installed, two on each switch,
    not [2 + 2 (3 - 2)]. *)
Lemma install_flow_three_switches :
  let out := (install_flow ofproto_v1_3 (registry [1; 2; 3]) links3 hosts3
                (Some [1; 2; 3]) flow13 42 None []).2 in
  links3 !! (1, 2) = Some (12, 21) ∧ links3 !! (2, 3) = Some (23, 32) ∧
  get_port h3 hosts3 = Ok (Some 7) ∧
  length (rules out) = 6%nat ∧
  length (rules out) ≠ (2 + 2 * (length [1; 2; 3] - 2))%nat ∧
  length (rules_on 1 out) = 2%nat ∧
  length (rules_on 2 out) = 2%nat ∧
  length (rules_on 3 out) = 2%nat ∧
  length (packet_outs out) = 1%nat.
Proof. vm_compute. repeat split; try reflexivity. discriminate. Qed.

Lemma install_flow_long_path_witness :
  (2 < length [1; 2; 3])%nat ∧ NoDup [1; 2; 3] ∧
  get_port h3 hosts3 = Ok (Some 7) ∧
  (∃ out first,
     (∀ t, install_flow ofproto_v1_3 (registry [1; 2; 3]) links3 hosts3
             (Some [1; 2; 3]) (0x0800, h1, h3, 5) 42 None t = (Ok tt, t ++ out)) ∧
     length (rules out) = (4 + 2 * (length [1; 2; 3] - 2))%nat ∧
     (∀ s, s ∈ [1; 2; 3] → length (rules_on s out) = 2%nat) ∧
     [1; 2; 3] !! 0%nat = Some first ∧
     ∃ d o, registry [1; 2; 3] !! first = Some d ∧ packet_outs out = [(d, o)]) ∧
  (∃ out,
     (∀ t, install_flow ofproto_v1_3 (registry [1; 2; 3]) links3 hosts3
             (Some [1; 2; 3]) (0x0800, h1, h3, 5) 0xffffffff None t
             = (Ok tt, t ++ out)) ∧
     length (rules out) = (4 + 2 * (length [1; 2; 3] - 2))%nat ∧
     (∀ s, s ∈ [1; 2; 3] → length (rules_on s out) = 2%nat) ∧
     packet_outs out = []).
Proof.
  assert (Hlen : (2 < length [1; 2; 3])%nat) by (simpl; lia).
  assert (Hnodup : NoDup [1; 2; 3]).
  { repeat (apply NoDup_cons; split;
            [intros Hin; repeat (apply elem_of_cons in Hin as [Hin|Hin];
                                 [discriminate|]);
             by apply elem_of_nil in Hin|]).
    apply NoDup_nil_2. }
  assert (Hport : get_port h3 hosts3 = Ok (Some 7)) by reflexivity.
  assert (Hlinks : ∀ k a b, [1; 2; 3] !! k = Some a → [1; 2; 3] !! S k = Some b →
                            is_Some (links3 !! (a, b))).
  { intros [|[|[|k]]] a b Ha Hb; simpl in Ha, Hb; try discriminate;
      injection Ha as <-; injection Hb as <-; eexists; vm_compute; reflexivity. }
  assert (Hreg : ∀ s, s ∈ [1; 2; 3] →
                      ∃ d, registry [1; 2; 3] !! s = Some d ∧ dp_id d = s).
  { intros s Hs.
    repeat (apply elem_of_cons in Hs as [->|Hs];
            [eexists; split; vm_compute; reflexivity|]).
    by apply elem_of_nil in Hs. }
  split; [exact Hlen|]. split; [exact Hnodup|]. split; [exact Hport|]. split.
  - destruct (install_flow_long_path ofproto_v1_3 (registry [1; 2; 3]) links3
                hosts3 [1; 2; 3] 0x0800 h1 h3 5 42 None 7
                Hlen Hnodup Hlinks Hport Hreg)
      as (out & first & Hrun & Htotal & Heach & Hfirst & Hone & _).
    exists out, first. repeat (split; [assumption|]).
    apply Hone. left. discriminate.
  - destruct (install_flow_long_path ofproto_v1_3 (registry [1; 2; 3]) links3
                hosts3 [1; 2; 3] 0x0800 h1 h3 5 0xffffffff None 7
                Hlen Hnodup Hlinks Hport Hreg)
      as (out & first & Hrun & Htotal & Heach & Hfirst & _ & Hnone).
    exists out. repeat (split; [assumption|]).
    apply Hnone. split; reflexivity.
Defined.



(** C2, as stated, fails: on the path of four switches the interior hop at
    switch 2 needs the adjacency from switch 1, which is absent, yet the
    installation does not stop there: the rules of the remaining hops, on
    switch 3 and on switch 4, are submitted afterwards. *)
Lemma install_flow_skips_interior_hop :
  links4 !! (1, 2) = None ∧
  install_flow ofproto_v1_3 (registry [1; 2; 3; 4]) links4 hosts4
      (Some [1; 2; 3; 4]) (0x0800, h1, h4, 5) 42 None []
    = (Ok tt, [not_in_links 1 2;
               Send (dp 3) (rule ofproto_v1_3 0x0800 32 h1 h4 34);
               Send (dp 3) (rule ofproto_v1_3 0x0800 34 h4 h1 32);
               Log (LogDebug "inter_link flow install" []);
               Send (dp 4) (rule ofproto_v1_3 0x0800 43 h1 h4 9);
               Send (dp 4) (rule ofproto_v1_3 0x0800 9 h4 h1 43);
               not_in_links 1 2;
               Log (LogInfo "Port not found in first hop." [])]).
Proof. split; vm_compute; reflexivity. Qed.

Lemma install_flow_missing_link_witness :
  links4 !! (1, 2) = None ∧
  (∃ logs,
     emits (inter_link ofproto_v1_3 (registry [1; 2; 3; 4]) links4 [1; 2; 3; 4]
              (0x0800, h1, h4) (0x0800, h4, h1) 1) (Ok tt) logs ∧
     rules logs = [] ∧ packet_outs logs = []) ∧
  (∃ o,
     emits (inter_links ofproto_v1_3 (registry [1; 2; 3; 4]) links4 [1; 2; 3; 4]
              (0x0800, h1, h4) (0x0800, h4, h1)) (Ok tt) o ∧
     Send (dp 3) (rule ofproto_v1_3 0x0800 32 h1 h4 34) ∈ o ∧
     Send (dp 3) (rule ofproto_v1_3 0x0800 34 h4 h1 32) ∈ o ∧
     emits (install_flow ofproto_v1_3 (registry [1; 2; 3; 4]) links4 hosts4
              (Some [1; 2; 3; 4]) (0x0800, h1, h4, 5) 42 None) (Ok tt)
           (o ++ [Send (dp 4) (rule ofproto_v1_3 0x0800 43 h1 h4 9);
                  Send (dp 4) (rule ofproto_v1_3 0x0800 9 h4 h1 43);
                  not_in_links 1 2;
                  Log (LogInfo "Port not found in first hop." [])])) ∧
  links5 !! (2, 3) = None ∧
  (∃ o,
     emits (inter_links ofproto_v1_3 (registry [1; 2; 3; 4; 5]) links5
              [1; 2; 3; 4; 5] (0x0800, h1, h5) (0x0800, h5, h1)) (Ok tt) o ∧
     Send (dp 4) (rule ofproto_v1_3 0x0800 43 h1 h5 45) ∈ o ∧
     Send (dp 4) (rule ofproto_v1_3 0x0800 45 h5 h1 43) ∈ o ∧
     emits (install_flow ofproto_v1_3 (registry [1; 2; 3; 4; 5]) links5 hosts5
              (Some [1; 2; 3; 4; 5]) (0x0800, h1, h5, 5) 42 None) (Ok tt)
           (o ++ [Send (dp 5) (rule ofproto_v1_3 0x0800 54 h1 h5 9);
                  Send (dp 5) (rule ofproto_v1_3 0x0800 9 h5 h1 54);
                  Send (dp 1) (rule ofproto_v1_3 0x0800 5 h1 h5 12);
                  Send (dp 1) (rule ofproto_v1_3 0x0800 12 h5 h1 5)]
              ++ [Send (dp 1)
                    (PacketOut {| po_buffer_id := 42; po_data := None;
                                  po_in_port := 5;
                                  po_actions := [OFPActionOutput 12] |})])).
Proof.
  assert (Hno4 : links4 !! (1, 2) = None) by (vm_compute; reflexivity).
  assert (Hno5 : links5 !! (2, 3) = None) by (vm_compute; reflexivity).
  split; [exact Hno4|].
  destruct (install_flow_missing_link ofproto_v1_3 (registry [1; 2; 3; 4]) links4
              hosts4 [1; 2; 3; 4] 0x0800 h1 h4 5 42 None)
    as (Hskip & Hloop & Hmember & Hedges).
  split; [|split].
  - apply (Hskip 1 1 2 3); [lia | reflexivity | reflexivity | reflexivity |].
    left. exact Hno4.
  - destruct Hloop as [o Hinter].
    { intros i a b c pab pbc _ _ Hb _ _ _.
      apply list_elem_of_lookup_2 in Hb.
      repeat (apply elem_of_cons in Hb as [->|Hb];
              [eexists; vm_compute; reflexivity|]).
      by apply elem_of_nil in Hb. }
    exists o. split; [exact Hinter|].
    destruct (Hmember o 2 2 3 4 (23, 32) (34, 43) (dp 3) Hinter)
      as [Hfwd Hback];
      [simpl; lia | reflexivity | reflexivity | reflexivity
       | vm_compute; reflexivity | vm_compute; reflexivity
       | vm_compute; reflexivity |].
    split; [exact Hfwd|]. split; [exact Hback|].
    destruct (Hedges 1 2 3 4 (dp 1) o ltac:(simpl; lia) eq_refl eq_refl eq_refl
                eq_refl ltac:(vm_compute; reflexivity) Hinter) as [_ Hlast].
    destruct (Hlast (34, 43) 9 (dp 4)) as [Habort _];
      [vm_compute; reflexivity | reflexivity | vm_compute; reflexivity |].
    exact (Habort Hno4).
  - split; [exact Hno5|].
    destruct (install_flow_missing_link ofproto_v1_3 (registry [1; 2; 3; 4; 5])
                links5 hosts5 [1; 2; 3; 4; 5] 0x0800 h1 h5 5 42 None)
      as (_ & Hloop5 & Hmember5 & Hedges5).
    destruct Hloop5 as [o Hinter].
    { intros i a b c pab pbc _ _ Hb _ _ _.
      apply list_elem_of_lookup_2 in Hb.
      repeat (apply elem_of_cons in Hb as [->|Hb];
              [eexists; vm_compute; reflexivity|]).
      by apply elem_of_nil in Hb. }
    exists o. split; [exact Hinter|].
    destruct (Hmember5 o 3 3 4 5 (34, 43) (45, 54) (dp 4) Hinter)
      as [Hfwd Hback];
      [simpl; lia | reflexivity | reflexivity | reflexivity
       | vm_compute; reflexivity | vm_compute; reflexivity
       | vm_compute; reflexivity |].
    split; [exact Hfwd|]. split; [exact Hback|].
    destruct (Hedges5 1 2 4 5 (dp 1) o ltac:(simpl; lia) eq_refl eq_refl eq_refl
                eq_refl ltac:(vm_compute; reflexivity) Hinter) as [_ Hlast].
    destruct (Hlast (45, 54) 9 (dp 5)) as [_ Hcomplete];
      [vm_compute; reflexivity | reflexivity | vm_compute; reflexivity |].
    exact (Hcomplete (12, 21) ltac:(vm_compute; reflexivity)).
Defined.

Lemma _state_change_handler_ids_witness :
  ∃ self' t',
    _state_change_handler net7 (dp 8) MAIN_DISPATCHER [] = (Ok self', t') ∧
    awareness self' = awareness net7 ∧
    ∀ s h, datapaths self' !! s = Some h → dp_id h = s.
Proof.
  apply (_state_change_handler_ids net7 (dp 8) MAIN_DISPATCHER []).
  intros s h. apply (registry_ids [7]).
Defined.

Lemma _state_change_handler_round_trip_witness :
  datapaths net7 !! dp_id (dp 8) = None ∧
  ∃ self1 self2,
    _state_change_handler net7 (dp 8) MAIN_DISPATCHER []
      = (Ok self1, [] ++ [Log (LogDebug "register datapath: %016x" [ArgInt 8])]) ∧
    (∀ t1, _state_change_handler self1 (dp 8) MAIN_DISPATCHER t1 = (Ok self1, t1)) ∧
    (∀ t1, _state_change_handler self1 (dp 8) DEAD_DISPATCHER t1
             = (Ok self2, t1 ++ [Log (LogDebug "unregister datapath: %016x"
                                               [ArgInt 8])])) ∧
    datapaths self2 = datapaths net7 ∧ awareness self2 = awareness net7.
Proof.
  assert (Hno : datapaths net7 !! dp_id (dp 8) = None) by (vm_compute; reflexivity).
  split; [exact Hno|].
  exact (_state_change_handler_round_trip net7 (dp 8) [] Hno).
Defined.

Lemma install_flow_same_switch_witness :
  registry [1] !! 1 = Some (dp 1) ∧ get_port h3 hosts3 = Ok (Some 7) ∧
  emits (install_flow ofproto_v1_3 (registry [1]) links3 hosts3 (Some [1])
           (0x0800, h1, h3, 5) 42 None) (Ok tt)
        ([Send (dp 1) (rule ofproto_v1_3 0x0800 5 h1 h3 7);
          Send (dp 1) (rule ofproto_v1_3 0x0800 7 h3 h1 5)]
         ++ match _build_packet_out ofproto_v1_3 (dp 1) 42 5 7 None with
            | Some o => [Send (dp 1) (PacketOut o)]
            | None => []
            end).
Proof.
  assert (Hd : registry [1] !! 1 = Some (dp 1)) by (vm_compute; reflexivity).
  assert (Hport : get_port h3 hosts3 = Ok (Some 7)) by reflexivity.
  split; [exact Hd|]. split; [exact Hport|].
  destruct (install_flow_same_switch ofproto_v1_3 (registry [1]) links3 hosts3
              1 (dp 1) 0x0800 h1 h3 5 42 None Hd) as [Hres _].
  exact (Hres 7 Hport).
Defined.

Lemma install_flow_two_switches_witness :
  registry [1; 2] !! 1 = Some (dp 1) ∧ registry [1; 2] !! 2 = Some (dp 2) ∧
  links3 !! (1, 2) = Some (12, 21) ∧ get_port h3 hosts3 = Ok (Some 7) ∧
  emits (install_flow ofproto_v1_3 (registry [1; 2]) links3 hosts3 (Some [1; 2])
           (0x0800, h1, h3, 5) 42 None) (Ok tt)
        ([Send (dp 2) (rule ofproto_v1_3 0x0800 21 h1 h3 7);
          Send (dp 2) (rule ofproto_v1_3 0x0800 7 h3 h1 21);
          Send (dp 1) (rule ofproto_v1_3 0x0800 5 h1 h3 12);
          Send (dp 1) (rule ofproto_v1_3 0x0800 12 h3 h1 5)]
         ++ match _build_packet_out ofproto_v1_3 (dp 1) 42 5 12 None with
            | Some o => [Send (dp 1) (PacketOut o)]
            | None => []
            end).
Proof.
  assert (Hd1 : registry [1; 2] !! 1 = Some (dp 1)) by (vm_compute; reflexivity).
  assert (Hd2 : registry [1; 2] !! 2 = Some (dp 2)) by (vm_compute; reflexivity).
  assert (Hlink : links3 !! (1, 2) = Some (12, 21)) by (vm_compute; reflexivity).
  assert (Hport : get_port h3 hosts3 = Ok (Some 7)) by reflexivity.
  split; [exact Hd1|]. split; [exact Hd2|]. split; [exact Hlink|].
  split; [exact Hport|].
  exact (install_flow_two_switches ofproto_v1_3 (registry [1; 2]) links3 hosts3
           1 2 (dp 1) (dp 2) (12, 21) 7 0x0800 h1 h3 5 42 None
           Hd1 Hd2 Hlink Hport).
Defined.

Lemma install_flow_unresolved_port_witness :
  links3 !! (2, 3) = Some (23, 32) ∧ get_port h4 hosts3 = Ok None ∧
  emits (install_flow ofproto_v1_3 (registry [1; 2; 3]) links3 hosts3
           (Some [1; 2; 3]) (0x0800, h1, h4, 5) 42 None) (Ok tt)
        ([Send (dp 2) (rule ofproto_v1_3 0x0800 21 h1 h4 23);
          Send (dp 2) (rule ofproto_v1_3 0x0800 23 h4 h1 21);
          Log (LogDebug "inter_link flow install" [])]
         ++ [Log (LogInfo "Last port is not found." [])]).
Proof.
  assert (Hlast : links3 !! (2, 3) = Some (23, 32)) by (vm_compute; reflexivity).
  assert (Hport : get_port h4 hosts3 = Ok None) by reflexivity.
  split; [exact Hlast|]. split; [exact Hport|].
  pose proof (emits_run _ (inter_links_framed ofproto_v1_3 (registry [1; 2; 3])
                             links3 [1; 2; 3] 0x0800 h1 h4)) as Hinter.
  assert (Heq : inter_links ofproto_v1_3 (registry [1; 2; 3]) links3 [1; 2; 3]
                  (0x0800, h1, h4) (0x0800, h4, h1) []
                = (Ok tt, [Send (dp 2) (rule ofproto_v1_3 0x0800 21 h1 h4 23);
                           Send (dp 2) (rule ofproto_v1_3 0x0800 23 h4 h1 21);
                           Log (LogDebug "inter_link flow install" [])]))
    by (vm_compute; reflexivity).
  rewrite Heq in Hinter.
  apply (install_flow_unresolved_port ofproto_v1_3 (registry [1; 2; 3]) links3
           hosts3 [1; 2; 3] 0x0800 h1 h4 5 42 None 1 2 3 (dp 1) (23, 32) _
           ltac:(simpl; lia) eq_refl ltac:(vm_compute; reflexivity) eq_refl eq_refl
           Hlast Hport Hinter).
Defined.

Lemma get_port_spec_witness :
  NoDup (keys hosts3) ∧
  ∃ o, get_port h3 hosts3 = Ok o ∧
       (o = None ↔ ∀ key mac, (key, (h3, mac)) ∉ hosts3) ∧
       (∀ p, o = Some p → ∃ sw mac, ((sw, p), (h3, mac)) ∈ hosts3).
Proof.
  assert (Hnodup : NoDup (keys hosts3)).
  { apply (bool_decide_unpack _). vm_compute. exact I. }
  split; [exact Hnodup|]. exact (get_port_spec h3 hosts3 Hnodup).
Defined.

Lemma shortest_forwarding_switch_zero_witness :
  get_host_location (access_table (awareness net01)) h3 = Some (0, 7) ∧
  shortest_forwarding ofproto_v1_3 net01 msg15 0x0800 h1 h3 [] = (Ok tt, []).
Proof.
  assert (Hdst : get_host_location (access_table (awareness net01)) h3
                   = Some (0, 7)) by reflexivity.
  split; [exact Hdst|].
  apply (shortest_forwarding_switch_zero ofproto_v1_3 net01 msg15 0x0800 h1 h3
           [5] 7 []); [reflexivity | right; reflexivity | exact Hdst].
Defined.

Lemma shortest_forwarding_same_switch_witness :
  NoDup (keys (access_table (awareness net1))) ∧
  emits (shortest_forwarding ofproto_v1_3 net1 msg15 0x0800 h1 h2) (Ok tt)
        [Log (LogInfo "[PATH]%s<-->%s: %s" [ArgStr h1; ArgStr h2; ArgPath [1]]);
         Send (dp 1) (rule ofproto_v1_3 0x0800 5 h1 h2 6);
         Send (dp 1) (rule ofproto_v1_3 0x0800 6 h2 h1 5);
         Send (dp 1) (PacketOut {| po_buffer_id := 42; po_data := None;
                                   po_in_port := 5;
                                   po_actions := [OFPActionOutput 6] |})].
Proof.
  assert (Hnodup : NoDup (keys (access_table (awareness net1)))).
  { apply (bool_decide_unpack _). vm_compute. exact I. }
  split; [exact Hnodup|].
  apply (shortest_forwarding_same_switch ofproto_v1_3 net1 msg15 0x0800 h1 h2
           [5; 6] 6 (dp 1) {[ 1 := [[1]] ]} []);
    first [ exact Hnodup | right; reflexivity | discriminate
          | vm_compute; reflexivity ].
Defined.

Lemma flood_nothing_unknown_witness :
  unknown_access_points (awareness net7_known) = [] ∧
  datapaths net7_known !! 7 = None ∧
  flood ofproto_v1_3 net7_known msg71 []
    = (Ok tt, [] ++ [Log (LogDebug "Flooding msg" [])]).
Proof.
  assert (Hnone : unknown_access_points (awareness net7_known) = [])
    by (vm_compute; reflexivity).
  split; [exact Hnone|]. split; [vm_compute; reflexivity|].
  exact (flood_nothing_unknown ofproto_v1_3 net7_known msg71 [] Hnone).
Defined.

Lemma _packet_in_handler_drops_witness :
  ∃ logs,
    _packet_in_handler ofproto_v1_3 net7 msg71
        {| arp_pkt := None; ip_pkt := Some (h1, h2); ethernet_pkts := [] |} []
      = (Ok tt, [] ++ logs) ∧
    rules logs = [] ∧ packet_outs logs = [].
Proof.
  apply (_packet_in_handler_drops ofproto_v1_3 net7 msg71
           {| arp_pkt := None; ip_pkt := Some (h1, h2); ethernet_pkts := [] |} []);
    [reflexivity | right; reflexivity].
Defined.

Lemma _packet_in_handler_order_witness :
  emits (arp_forwarding ofproto_v1_3 net7_unregistered msg71 h1 h2)
        (Raise KeyError) [] ∧
  emits (_packet_in_handler ofproto_v1_3 net7_unregistered msg71
           {| arp_pkt := Some (h1, h2); ip_pkt := Some (h1, h2);
              ethernet_pkts := [0x0800] |})
        (Raise KeyError) [Log (LogDebug "ARP processing" [])].
Proof.
  assert (Harp : emits (arp_forwarding ofproto_v1_3 net7_unregistered msg71 h1 h2)
                       (Raise KeyError) []).
  { destruct (arp_forwarding_emits_with ofproto_v1_3 net7_unregistered msg71 h1 h2)
      as (r & o & Hrun & _).
    assert (Heq : arp_forwarding ofproto_v1_3 net7_unregistered msg71 h1 h2 []
                  = (Raise KeyError, [])) by (vm_compute; reflexivity).
    rewrite (Hrun []) in Heq. simpl in Heq. injection Heq as -> ->. exact Hrun. }
  split; [exact Harp|].
  destruct (_packet_in_handler_order ofproto_v1_3 net7_unregistered msg71
              {| arp_pkt := Some (h1, h2); ip_pkt := Some (h1, h2);
                 ethernet_pkts := [0x0800] |} h1 h2 h1 h2 0x0800 []
              eq_refl eq_refl eq_refl) as [Hraise _].
  exact (Hraise KeyError [] Harp).
Defined.
